(** * Tax form renderer: path resolution, formatting, validation, field rendering

    A shallow embedding of [TaxFormRenderer] (form_render.py).  The annotation
    and data documents are the values produced by [json.load]; Python
    exceptions are modelled by an explicit error type, and the two mutable
    accumulators ([self.errors], [self.warnings]) together with the canvas
    are threaded as explicit state. *)

From Stdlib Require Import ZArith List String Ascii Bool Lia.
From Stdlib Require Import Floats.SpecFloat.
From Stdlib Require Import Permutation.
Import ListNotations.

Set Warnings "-register-all".
Set Warnings "-automation".

Local Open Scope string_scope.
Local Open Scope Z_scope.

(** ** Python runtime values and exceptions *)

(** The exception classes that the renderer can meet. *)
Inductive exn : Type :=
| KeyError
| IndexError
| TypeError
| AttributeError
| ValueError
| OverflowError
| ZeroDivisionError
| ReError.

(** A computation either returns or raises. *)
Inductive outcome (A : Type) : Type :=
| Ok (a : A)
| Raise (e : exn).

Arguments Ok {A} a.
Arguments Raise {A} e.

Definition bind {A B : Type} (r : outcome A) (k : A -> outcome B) : outcome B :=
  match r with
  | Ok a => k a
  | Raise e => Raise e
  end.

Notation "x <- r ;; k" := (bind r (fun x => k))
  (at level 61, r at next level, right associativity).

Definition exn_eqb (a b : exn) : bool :=
  match a, b with
  | KeyError, KeyError | IndexError, IndexError | TypeError, TypeError
  | AttributeError, AttributeError | ValueError, ValueError
  | OverflowError, OverflowError | ZeroDivisionError, ZeroDivisionError
  | ReError, ReError => true
  | _, _ => false
  end.

(** [try: body except (e1, ..., en): handler] *)
Definition try_except {A : Type} (body : outcome A) (caught : list exn)
    (handler : outcome A) : outcome A :=
  match body with
  | Ok a => Ok a
  | Raise e => if existsb (exn_eqb e) caught then handler else Raise e
  end.

(** A Python float is an IEEE-754 binary64 number. *)
Definition float := spec_float.
Definition prec : Z := 53.
Definition emax : Z := 1024.

(** Values as [json.load] builds them.  A [str] is a sequence of code points;
    the model keeps the code points below 256.  A [dict] keeps its items in
    insertion order and is searched from the front. *)
Inductive val : Type :=
| VNone
| VBool (b : bool)
| VInt (z : Z)
| VFloat (f : float)
| VStr (s : string)
| VList (l : list val)
| VDict (d : list (string * val)).

Definition is_none (v : val) : bool :=
  match v with
  | VNone => true
  | _ => false
  end.

(** ** Strings *)

Definition chr (n : nat) : ascii := ascii_of_nat n.
Definition ord (c : ascii) : nat := nat_of_ascii c.

(** [c in s] for a one-character [c] *)
Fixpoint str_contains (c : ascii) (s : string) : bool :=
  match s with
  | EmptyString => false
  | String a r => Ascii.eqb a c || str_contains c r
  end.

(** [s.index(c)]: position of the first occurrence; [ValueError] when absent *)
Fixpoint str_index (c : ascii) (s : string) : outcome nat :=
  match s with
  | EmptyString => Raise ValueError
  | String a r =>
      if Ascii.eqb a c then Ok O
      else i <- str_index c r ;; Ok (S i)
  end.

Fixpoint str_take (n : nat) (s : string) : string :=
  match n, s with
  | O, _ => EmptyString
  | S _, EmptyString => EmptyString
  | S m, String a r => String a (str_take m r)
  end.

Fixpoint str_drop (n : nat) (s : string) : string :=
  match n, s with
  | O, _ => s
  | S _, EmptyString => EmptyString
  | S m, String _ r => str_drop m r
  end.

(** [s[a:b]] for non-negative bounds; empty when [b <= a] *)
Definition str_slice (a b : nat) (s : string) : string :=
  str_take (b - a) (str_drop a s).

(** [s.split(sep)] for a one-character separator *)
Fixpoint str_split (sep : ascii) (s : string) : list string :=
  match s with
  | EmptyString => [EmptyString]
  | String a r =>
      if Ascii.eqb a sep then EmptyString :: str_split sep r
      else
        match str_split sep r with
        | h :: t => String a h :: t
        | [] => [String a EmptyString]
        end
  end.

(** [s.replace(c, '')] for a one-character [c] *)
Fixpoint str_remove (c : ascii) (s : string) : string :=
  match s with
  | EmptyString => EmptyString
  | String a r =>
      if Ascii.eqb a c then str_remove c r else String a (str_remove c r)
  end.

Fixpoint str_rev_onto (s acc : string) : string :=
  match s with
  | EmptyString => acc
  | String a r => str_rev_onto r (String a acc)
  end.

Definition str_rev (s : string) : string := str_rev_onto s EmptyString.

Fixpoint str_drop_while (p : ascii -> bool) (s : string) : string :=
  match s with
  | EmptyString => EmptyString
  | String a r => if p a then str_drop_while p r else s
  end.

(** Strip from both ends the characters satisfying [p]. *)
Definition str_strip_with (p : ascii -> bool) (s : string) : string :=
  str_rev (str_drop_while p (str_rev (str_drop_while p s))).

(** Every character of [s] satisfies [p]. *)
Fixpoint str_forall (p : ascii -> bool) (s : string) : bool :=
  match s with
  | EmptyString => true
  | String a r => p a && str_forall p r
  end.

(** [str.isspace] on a code point below 256 *)
Definition is_space (c : ascii) : bool :=
  let n := ord c in
  ((9 <=? n) && (n <=? 13) || (28 <=? n) && (n <=? 32)
   || (n =? 133) || (n =? 160))%nat.

(** The white space that [int()] and [float()] skip around a numeral. *)
Definition is_numeral_space (c : ascii) : bool :=
  let n := ord c in
  ((9 <=? n) && (n <=? 13) || (n =? 32) || (n =? 133) || (n =? 160))%nat.

(** [s.strip()] *)
Definition str_strip (s : string) : string := str_strip_with is_space s.

Definition is_digit (c : ascii) : bool :=
  let n := ord c in ((48 <=? n) && (n <=? 57))%nat.

Definition digit_val (c : ascii) : Z := Z.of_nat (ord c) - 48.

Definition digit_chr (d : Z) : ascii := chr (Z.to_nat (d + 48)).

(** ** Integers and their decimal text *)

(** The longest prefix of [s] that is a run of digits with single
    underscores between digits.  Returns the value read on top of [acc], the
    number of digits read on top of [n], and the text left. *)
Fixpoint scan_digits (s : string) (acc : Z) (n : nat) : Z * nat * string :=
  match s with
  | EmptyString => (acc, n, s)
  | String a r =>
      if is_digit a then scan_digits r (10 * acc + digit_val a) (S n)
      else if Ascii.eqb a "_" && negb (Nat.eqb n 0) then
        match r with
        | String b r' =>
            if is_digit b then scan_digits r' (10 * acc + digit_val b) (S n)
            else (acc, n, s)
        | EmptyString => (acc, n, s)
        end
      else (acc, n, s)
  end.

(** A whole text that is one non-empty run of digits. *)
Definition digit_part (s : string) : option Z :=
  match scan_digits s 0 0 with
  | (z, S _, EmptyString) => Some z
  | _ => None
  end.

(** [int(s)] for a [str] argument, base ten *)
Definition int_of_str (s : string) : outcome Z :=
  let t := str_strip_with is_numeral_space s in
  let '(neg, body) :=
    match t with
    | String a r =>
        if Ascii.eqb a "-" then (true, r)
        else if Ascii.eqb a "+" then (false, r)
        else (false, t)
    | EmptyString => (false, t)
    end in
  match digit_part body with
  | Some z => Ok (if neg then - z else z)
  | None => Raise ValueError
  end.

(** Decimal digits of a non-negative integer, most significant first. *)
Fixpoint dec_digits (fuel : nat) (z : Z) (acc : string) : string :=
  match fuel with
  | O => acc
  | S fuel' =>
      let acc' := String (digit_chr (z mod 10)) acc in
      if z <? 10 then acc' else dec_digits fuel' (z / 10) acc'
  end.

Definition dec_of_nonneg (z : Z) : string :=
  dec_digits (S (Z.to_nat (Z.log2 z))) z EmptyString.

(** [str(z)] for an [int] *)
Definition str_of_int (z : Z) : string :=
  if z <? 0 then String "-" (dec_of_nonneg (- z)) else dec_of_nonneg z.

(** ** Floats *)

Definition pow10 (n : Z) : Z := 10 ^ n.

Definition pos_zero : float := S754_zero false.
Definition pos_inf : float := S754_infinity false.

(** The binary64 number nearest to [p / q] (ties to even), for positive
    integers [p] and [q], with sign [neg]. *)
Definition float_of_ratio (neg : bool) (p q : Z) : float :=
  let '(mz, ez, lz) := SFdiv_core_binary prec emax p 0 q 0 in
  binary_round_aux prec emax neg mz ez lz.

(** The binary64 number nearest to the integer [z]; it is infinite when [z]
    is beyond the range. *)
Definition float_round_int (z : Z) : float :=
  binary_normalize prec emax z 0 false.

Definition is_inf (f : float) : bool :=
  match f with
  | S754_infinity _ => true
  | _ => false
  end.

Definition is_nan (f : float) : bool :=
  match f with
  | S754_nan => true
  | _ => false
  end.

Definition is_finite (f : float) : bool :=
  match f with
  | S754_zero _ | S754_finite _ _ _ => true
  | _ => false
  end.

Definition sign_bit (f : float) : bool :=
  match f with
  | S754_zero s | S754_infinity s | S754_finite s _ _ => s
  | S754_nan => false
  end.

(** [float(z)] for an [int] *)
Definition float_of_int (z : Z) : outcome float :=
  let f := float_round_int z in
  if is_inf f then Raise OverflowError else Ok f.

(** The magnitude of a finite float as an exact fraction. *)
Definition float_magnitude (f : float) : Z * Z :=
  match f with
  | S754_finite _ m e =>
      if 0 <=? e then (Z.pos m * 2 ^ e, 1) else (Z.pos m, 2 ^ (- e))
  | _ => (0, 1)
  end.

(** Case-insensitive comparison with a lower-case word. *)
Definition lower (c : ascii) : ascii :=
  let n := ord c in
  if ((65 <=? n) && (n <=? 90))%nat then chr (n + 32) else c.

Fixpoint str_lower (s : string) : string :=
  match s with
  | EmptyString => EmptyString
  | String a r => String (lower a) (str_lower r)
  end.

(** The unsigned part of a float literal: mantissa digits as an integer, and
    the power of ten that scales it; [None] when the text is no numeral. *)
Definition scan_decimal (s : string) : option (Z * Z * nat) :=
  let '(iv, ni, r1) := scan_digits s 0 0 in
  let '(mv, nd, nf, r2) :=
    match r1 with
    | String "." t =>
        let '(fv, nf, r2) := scan_digits t 0 0 in
        (iv * pow10 (Z.of_nat nf) + fv, (ni + nf)%nat, nf, r2)
    | _ => (iv, ni, 0%nat, r1)
    end in
  if Nat.eqb nd 0 then None
  else
    match r2 with
    | EmptyString => Some (mv, - Z.of_nat nf, nd)
    | String c t =>
        if Ascii.eqb (lower c) "e" then
          let '(neg, t') :=
            match t with
            | String "-" u => (true, u)
            | String "+" u => (false, u)
            | _ => (false, t)
            end in
          match scan_digits t' 0 0 with
          | (ev, S _, EmptyString) =>
              Some (mv, (if neg then - ev else ev) - Z.of_nat nf, nd)
          | _ => None
          end
        else None
    end.

(** The float nearest to [m * 10 ^ e], where [m] has at most [nd] digits. *)
Definition float_of_decimal (neg : bool) (m e : Z) (nd : nat) : float :=
  if m =? 0 then S754_zero neg
  else if 310 <? e then S754_infinity neg
  else if e + Z.of_nat nd <? -330 then S754_zero neg
  else if 0 <=? e then float_of_ratio neg (m * pow10 e) 1
  else float_of_ratio neg m (pow10 (- e)).

Definition float_of_unsigned (neg : bool) (s : string) : outcome float :=
  let w := str_lower s in
  if String.eqb w "inf" || String.eqb w "infinity" then Ok (S754_infinity neg)
  else if String.eqb w "nan" then Ok S754_nan
  else
    match scan_decimal s with
    | Some (m, e, nd) => Ok (float_of_decimal neg m e nd)
    | None => Raise ValueError
    end.

(** [float(s)] for a [str] argument *)
Definition float_of_str (s : string) : outcome float :=
  match str_strip_with is_numeral_space s with
  | String "-" r => float_of_unsigned true r
  | String "+" r => float_of_unsigned false r
  | t => float_of_unsigned false t
  end.

(** The float that a numeric literal denotes, in a program or in JSON. *)
Definition float_lit (s : string) : float :=
  match float_of_str s with
  | Ok f => f
  | Raise _ => S754_nan
  end.

(** Nearest integer to [a / b], ties to even, for [0 <= a] and [0 < b]. *)
Definition round_half_even (a b : Z) : Z :=
  let q := a / b in
  let r := a mod b in
  match 2 * r ?= b with
  | Lt => q
  | Gt => q + 1
  | Eq => if Z.even q then q else q + 1
  end.

Fixpoint str_repeat (c : ascii) (n : nat) : string :=
  match n with
  | O => EmptyString
  | S m => String c (str_repeat c m)
  end.

(** Pad with zeros on the left up to [n] characters. *)
Definition zero_pad (n : nat) (s : string) : string :=
  str_repeat "0" (n - String.length s) ++ s.

(** A comma before every group of three digits, counted from the right;
    [n] is the length of [s]. *)
Fixpoint group_thousands (s : string) (n : nat) : string :=
  match s with
  | EmptyString => EmptyString
  | String a r =>
      let n' := (n - 1)%nat in
      if ((n' mod 3 =? 0) && negb (n' =? 0))%nat
      then String a (String "," (group_thousands r n'))
      else String a (group_thousands r n')
  end.

Definition with_commas (grouped : bool) (digits : string) : string :=
  if grouped then group_thousands digits (String.length digits) else digits.

(** [format(f, ",.{d}f")] and [format(f, ".{d}f")]: fixed notation with [d]
    digits after the point, the exact value rounded half to even. *)
Definition format_float_fixed (grouped : bool) (d : nat) (f : float) : string :=
  let sign := if sign_bit f then "-" else "" in
  match f with
  | S754_nan => "nan"
  | S754_infinity _ => sign ++ "inf"
  | _ =>
      let '(p, q) := float_magnitude f in
      let scale := pow10 (Z.of_nat d) in
      let n := round_half_even (p * scale) q in
      let whole := with_commas grouped (dec_of_nonneg (n / scale)) in
      match d with
      | O => sign ++ whole
      | _ => sign ++ whole ++ "." ++ zero_pad d (dec_of_nonneg (n mod scale))
      end
  end.

(** [format(z, ",")] for an [int] *)
Definition format_int_grouped (z : Z) : string :=
  if z <? 0 then String "-" (with_commas true (dec_of_nonneg (- z)))
  else with_commas true (dec_of_nonneg z).

(** [int(f)] for a [float]: truncation towards zero *)
Definition int_of_float (f : float) : outcome Z :=
  match f with
  | S754_nan => Raise ValueError
  | S754_infinity _ => Raise OverflowError
  | S754_zero _ => Ok 0
  | S754_finite s _ _ =>
      let '(p, q) := float_magnitude f in
      Ok (if s then - (p / q) else p / q)
  end.

(** *** Shortest text that reads back as the same float *)

(** Number of decimal digits of a positive integer. *)
Definition dec_length (z : Z) : Z := Z.of_nat (String.length (dec_of_nonneg z)).

(** The exponent [k] with [10 ^ (k - 1) <= p / q < 10 ^ k], for positive
    [p] and [q]. *)
Definition decimal_exponent (p q : Z) : Z :=
  let k := dec_length p - dec_length q in
  (* [10 ^ (k - 1) < p / q < 10 ^ (k + 1)] *)
  if 0 <=? k then (if pow10 k * q <=? p then k + 1 else k)
  else (if q <=? p * pow10 (- k) then k + 1 else k).

(** [c * 10 ^ e] as a fraction, for a non-negative integer [c]. *)
Definition scaled (c e : Z) : Z * Z :=
  if 0 <=? e then (c * pow10 e, 1) else (c, pow10 (- e)).

Definition float_eqb_exact (a b : float) : bool :=
  match a, b with
  | S754_finite s m e, S754_finite s' m' e' =>
      Bool.eqb s s' && Pos.eqb m m' && Z.eqb e e'
  | _, _ => false
  end.

(** Does the decimal [c * 10 ^ e] read back as [f]? *)
Definition reads_back (f : float) (c e : Z) : bool :=
  if c =? 0 then false
  else
    let '(p, q) := scaled c e in
    float_eqb_exact (float_of_ratio (sign_bit f) p q) f.

(** The candidate with [n] significant digits, if one reads back as [f]:
    the two [n]-digit decimals around the exact value are tried, and the
    nearer one is preferred. *)
Definition digits_candidate (f : float) (k : Z) (n : Z) : option (Z * Z) :=
  let '(p, q) := float_magnitude f in
  let e := k - n in
  let '(sp, sq) := if 0 <=? e then (p, q * pow10 e) else (p * pow10 (- e), q) in
  let lo := sp / sq in
  let r := sp mod sq in
  if r =? 0 then (if reads_back f lo e then Some (lo, e) else None)
  else
    let hi := lo + 1 in
    let lo_ok := reads_back f lo e in
    let hi_ok := reads_back f hi e in
    let lo_nearer := 2 * r <=? sq in
    match lo_ok, hi_ok with
    | true, true => Some (if lo_nearer then lo else hi, e)
    | true, false => Some (lo, e)
    | false, true => Some (hi, e)
    | false, false => None
    end.

Fixpoint shortest_search (fuel : nat) (f : float) (k n : Z) : Z * Z :=
  match fuel with
  | O => let '(p, q) := float_magnitude f in (round_half_even (p * pow10 (17 - k)) q, k - 17)
  | S fuel' =>
      match digits_candidate f k n with
      | Some ce => ce
      | None => shortest_search fuel' f k (n + 1)
      end
  end.

Fixpoint strip_trailing_zeros (fuel : nat) (c e : Z) : Z * Z :=
  match fuel with
  | O => (c, e)
  | S fuel' =>
      if (c mod 10 =? 0) && negb (c =? 0)
      then strip_trailing_zeros fuel' (c / 10) (e + 1)
      else (c, e)
  end.

(** The digits of the shortest decimal that reads back as the finite non-zero
    [f], and the position of the decimal point relative to them. *)
Definition shortest_digits (f : float) : string * Z :=
  let '(p, q) := float_magnitude f in
  let k := decimal_exponent p q in
  let '(c, e) := shortest_search 17 f k 1 in
  let '(c', e') := strip_trailing_zeros 18 c e in
  let ds := dec_of_nonneg c' in
  (ds, Z.of_nat (String.length ds) + e').

(** [repr(f)] and [str(f)] for a [float] *)
Definition str_of_float (f : float) : string :=
  let sign := if sign_bit f then "-" else "" in
  match f with
  | S754_nan => "nan"
  | S754_infinity _ => sign ++ "inf"
  | S754_zero _ => sign ++ "0.0"
  | S754_finite _ _ _ =>
      let '(ds, decpt) := shortest_digits f in
      let nd := Z.of_nat (String.length ds) in
      if (decpt <=? -4) || (16 <? decpt) then
        let x := decpt - 1 in
        let mant :=
          match ds with
          | String a EmptyString => ds
          | String a r => String a (String "." r)
          | EmptyString => ds
          end in
        sign ++ mant ++ "e" ++ (if x <? 0 then "-" else "+")
             ++ zero_pad 2 (dec_of_nonneg (Z.abs x))
      else if decpt <=? 0 then
        sign ++ "0." ++ str_repeat "0" (Z.to_nat (- decpt)) ++ ds
      else if nd <=? decpt then
        sign ++ ds ++ str_repeat "0" (Z.to_nat (decpt - nd)) ++ ".0"
      else
        sign ++ str_take (Z.to_nat decpt) ds ++ "." ++ str_drop (Z.to_nat decpt) ds
  end.

(** ** Mappings and sequences *)

Fixpoint assoc (k : string) (d : list (string * val)) : option val :=
  match d with
  | [] => None
  | (k', v) :: r => if String.eqb k' k then Some v else assoc k r
  end.

(** [obj.get(key, default)]: only a [dict] has the method *)
Definition get (obj : val) (key : string) (default : val) : outcome val :=
  match obj with
  | VDict d =>
      match assoc key d with
      | Some v => Ok v
      | None => Ok default
      end
  | _ => Raise AttributeError
  end.

(** [l[i]] on a list: a negative index counts from the end *)
Definition list_item (l : list val) (i : Z) : outcome val :=
  let n := Z.of_nat (List.length l) in
  let j := if i <? 0 then i + n else i in
  if (j <? 0) || (n <=? j) then Raise IndexError
  else
    match nth_error l (Z.to_nat j) with
    | Some v => Ok v
    | None => Raise IndexError
    end.

(** [s[i]] on a string: the one-character string at that position *)
Definition str_item (s : string) (i : Z) : outcome val :=
  let n := Z.of_nat (String.length s) in
  let j := if i <? 0 then i + n else i in
  if (j <? 0) || (n <=? j) then Raise IndexError
  else
    match String.get (Z.to_nat j) s with
    | Some c => Ok (VStr (String c EmptyString))
    | None => Raise IndexError
    end.

(** [obj[i]] for an integer [i].  A [dict] read from JSON has only string
    keys, so an integer key is never found. *)
Definition subscript (obj : val) (i : Z) : outcome val :=
  match obj with
  | VList l => list_item l i
  | VStr s => str_item s i
  | VDict _ => Raise KeyError
  | VNone | VBool _ | VInt _ | VFloat _ => Raise TypeError
  end.

(** ** Text of values *)

Definition hex_digit (n : nat) : ascii :=
  if (n <? 10)%nat then chr (48 + n) else chr (87 + n).

(** One character inside [repr(s)] with quote character [q]. *)
Definition repr_char (q : ascii) (c : ascii) : string :=
  let n := ord c in
  if Ascii.eqb c q || Ascii.eqb c "\" then String "\" (String c EmptyString)
  else if (n =? 9)%nat then "\t"
  else if (n =? 10)%nat then "\n"
  else if (n =? 13)%nat then "\r"
  else if ((n <? 32) || (n =? 127) || (128 <=? n) && (n <=? 160) || (n =? 173))%nat
  then String "\" (String "x" (String (hex_digit (n / 16)) (String (hex_digit (n mod 16)) EmptyString)))
  else String c EmptyString.

Fixpoint repr_chars (q : ascii) (s : string) : string :=
  match s with
  | EmptyString => EmptyString
  | String a r => repr_char q a ++ repr_chars q r
  end.

Definition double_quote : ascii := chr 34.

(** [repr(s)] for a [str] *)
Definition repr_str (s : string) : string :=
  let q := if str_contains "'" s && negb (str_contains double_quote s)
           then double_quote else "'"%char in
  String q (repr_chars q s ++ String q EmptyString).

Fixpoint join (sep : string) (l : list string) : string :=
  match l with
  | [] => EmptyString
  | [s] => s
  | s :: r => s ++ sep ++ join sep r
  end.

(** [repr(v)] *)
Fixpoint repr (v : val) : string :=
  match v with
  | VNone => "None"
  | VBool b => if b then "True" else "False"
  | VInt z => str_of_int z
  | VFloat f => str_of_float f
  | VStr s => repr_str s
  | VList l => "[" ++ join ", " (map repr l) ++ "]"
  | VDict d =>
      "{" ++ join ", " (map (fun kv => repr_str (fst kv) ++ ": " ++ repr (snd kv)) d)
          ++ "}"
  end.

(** [str(v)], which is also [format(v, '')] and what an f-string inserts *)
Definition str (v : val) : string :=
  match v with
  | VStr s => s
  | _ => repr v
  end.

(** Truth value of [v] in a condition. *)
Definition truthy (v : val) : bool :=
  match v with
  | VNone => false
  | VBool b => b
  | VInt z => negb (z =? 0)
  | VFloat f => match f with S754_zero _ => false | _ => true end
  | VStr s => negb (String.eqb s "")
  | VList l => match l with [] => false | _ => true end
  | VDict d => match d with [] => false | _ => true end
  end.

(** [v == s] for a string constant [s] *)
Definition eq_str (v : val) (s : string) : bool :=
  match v with
  | VStr t => String.eqb t s
  | _ => false
  end.

(** [len(v)] *)
Definition len (v : val) : outcome Z :=
  match v with
  | VStr s => Ok (Z.of_nat (String.length s))
  | VList l => Ok (Z.of_nat (List.length l))
  | VDict d => Ok (Z.of_nat (List.length d))
  | _ => Raise TypeError
  end.

(** The items that [for x in v] visits. *)
Fixpoint chars (s : string) : list val :=
  match s with
  | EmptyString => []
  | String a r => VStr (String a EmptyString) :: chars r
  end.

Definition iterate (v : val) : outcome (list val) :=
  match v with
  | VStr s => Ok (chars s)
  | VList l => Ok l
  | VDict d => Ok (map (fun kv => VStr (fst kv)) d)
  | _ => Raise TypeError
  end.

(** ** Numbers *)

(** [float(v)] *)
Definition float_of (v : val) : outcome float :=
  match v with
  | VBool b => Ok (if b then float_round_int 1 else pos_zero)
  | VInt z => float_of_int z
  | VFloat f => Ok f
  | VStr s => float_of_str s
  | VNone | VList _ | VDict _ => Raise TypeError
  end.

(** The numeric tower: [bool] and [int] are exact integers. *)
Inductive num : Type :=
| NInt (z : Z)
| NFloat (f : float).

Definition as_num (v : val) : option num :=
  match v with
  | VBool b => Some (NInt (if b then 1 else 0))
  | VInt z => Some (NInt z)
  | VFloat f => Some (NFloat f)
  | _ => None
  end.

Definition of_num (n : num) : val :=
  match n with
  | NInt z => VInt z
  | NFloat f => VFloat f
  end.

Definition num_to_float (n : num) : outcome float :=
  match n with
  | NInt z => float_of_int z
  | NFloat f => Ok f
  end.

(** Exact comparison of an integer with a float; [None] on a NaN. *)
Definition compare_int_float (z : Z) (f : float) : option comparison :=
  match f with
  | S754_nan => None
  | S754_infinity s => Some (if s then Gt else Lt)
  | S754_zero _ => Some (z ?= 0)
  | S754_finite s m e =>
      let '(p, q) := float_magnitude f in
      Some (z * q ?= (if s then - p else p))
  end.

Definition num_compare (a b : num) : option comparison :=
  match a, b with
  | NInt x, NInt y => Some (x ?= y)
  | NFloat x, NFloat y => SFcompare x y
  | NInt x, NFloat y => compare_int_float x y
  | NFloat x, NInt y => option_map CompOpp (compare_int_float y x)
  end.

(** The four ordering operators.  One operand of every comparison in the
    renderer is a number, and a number is ordered only with numbers. *)
Definition compare_with (test : option comparison -> bool) (a b : val)
    : outcome bool :=
  match as_num a, as_num b with
  | Some x, Some y => Ok (test (num_compare x y))
  | _, _ => Raise TypeError
  end.

Definition lt (a b : val) : outcome bool :=
  compare_with (fun c => match c with Some Lt => true | _ => false end) a b.
Definition gt (a b : val) : outcome bool :=
  compare_with (fun c => match c with Some Gt => true | _ => false end) a b.
Definition le (a b : val) : outcome bool :=
  compare_with (fun c => match c with Some Lt | Some Eq => true | _ => false end) a b.

(** A float result of arithmetic on floats (no exception on overflow). *)
Definition float_op (op : float -> float -> float) (a b : num) : outcome val :=
  x <- num_to_float a ;;
  y <- num_to_float b ;;
  Ok (VFloat (op x y)).

Fixpoint list_repeat (l : list val) (n : nat) : list val :=
  match n with
  | O => []
  | S m => l ++ list_repeat l m
  end.

Fixpoint str_times (s : string) (n : nat) : string :=
  match n with
  | O => EmptyString
  | S m => s ++ str_times s m
  end.

(** [a + b] *)
Definition add (a b : val) : outcome val :=
  match as_num a, as_num b with
  | Some (NInt x), Some (NInt y) => Ok (VInt (x + y))
  | Some x, Some y => float_op (SFadd prec emax) x y
  | _, _ =>
      match a, b with
      | VStr s, VStr t => Ok (VStr (s ++ t))
      | VList l, VList m => Ok (VList (l ++ m))
      | _, _ => Raise TypeError
      end
  end.

(** [a - b] *)
Definition sub (a b : val) : outcome val :=
  match as_num a, as_num b with
  | Some (NInt x), Some (NInt y) => Ok (VInt (x - y))
  | Some x, Some y => float_op (SFsub prec emax) x y
  | _, _ => Raise TypeError
  end.

(** [a * b] *)
Definition mul (a b : val) : outcome val :=
  match as_num a, as_num b with
  | Some (NInt x), Some (NInt y) => Ok (VInt (x * y))
  | Some x, Some y => float_op (SFmul prec emax) x y
  | Some (NInt n), None =>
      match b with
      | VStr s => Ok (VStr (str_times s (Z.to_nat n)))
      | VList l => Ok (VList (list_repeat l (Z.to_nat n)))
      | _ => Raise TypeError
      end
  | None, Some (NInt n) =>
      match a with
      | VStr s => Ok (VStr (str_times s (Z.to_nat n)))
      | VList l => Ok (VList (list_repeat l (Z.to_nat n)))
      | _ => Raise TypeError
      end
  | _, _ => Raise TypeError
  end.

Definition float_is_zero (f : float) : bool :=
  match f with
  | S754_zero _ => true
  | _ => false
  end.

(** [a / b]: true division *)
Definition truediv (a b : val) : outcome val :=
  match as_num a, as_num b with
  | Some (NInt x), Some (NInt y) =>
      if y =? 0 then Raise ZeroDivisionError
      else if x =? 0 then Ok (VFloat (S754_zero (y <? 0)))
      else
        let f := float_of_ratio (negb (Bool.eqb (x <? 0) (y <? 0)))
                   (Z.abs x) (Z.abs y) in
        if is_inf f then Raise OverflowError else Ok (VFloat f)
  | Some x, Some y =>
      fx <- num_to_float x ;;
      fy <- num_to_float y ;;
      if float_is_zero fy then Raise ZeroDivisionError
      else Ok (VFloat (SFdiv prec emax fx fy))
  | _, _ => Raise TypeError
  end.

(** [obj[key]] for a string key *)
Definition item (obj : val) (key : string) : outcome val :=
  match obj with
  | VDict d =>
      match assoc key d with
      | Some v => Ok v
      | None => Raise KeyError
      end
  | _ => Raise TypeError
  end.

(** [v[:n]] *)
Definition slice_to (v n : val) : outcome val :=
  match n with
  | VNone =>
      match v with
      | VStr _ | VList _ => Ok v
      | _ => Raise TypeError
      end
  | VInt _ | VBool _ =>
      let k := match n with VInt z => z | VBool true => 1 | _ => 0 end in
      match v with
      | VStr s =>
          let stop := if k <? 0 then Z.of_nat (String.length s) + k else k in
          Ok (VStr (str_take (Z.to_nat stop) s))
      | VList l =>
          let stop := if k <? 0 then Z.of_nat (List.length l) + k else k in
          Ok (VList (firstn (Z.to_nat stop) l))
      | _ => Raise TypeError
      end
  | _ => Raise TypeError
  end.

(** ** Path resolver *)

(** The body of [for key in keys] in [resolve_value_reference], up to the
    test [if value is None]. *)
Definition resolve_step (value : val) (key : string) : outcome val :=
  if str_contains "[" key && str_contains "]" key then
    lb <- str_index "[" key ;;
    let base_key := str_take lb key in
    lb' <- str_index "[" key ;;
    rb <- str_index "]" key ;;
    index <- int_of_str (str_slice (lb' + 1) rb key) ;;
    seq <- get value base_key (VList []) ;;
    subscript seq index
  else
    get value key VNone.

Fixpoint resolve_loop (keys : list string) (value default : val)
    : outcome val :=
  match keys with
  | [] => Ok value
  | key :: rest =>
      v <- resolve_step value key ;;
      if is_none v then Ok default else resolve_loop rest v default
  end.

(** [resolve_value_reference(self, path, default)], with [self.data] as
    [data].  Only a [str] has the method [split]. *)
Definition resolve_value_reference (data : val) (path : val) (default : val)
    : outcome val :=
  if negb (truthy path) || eq_str path "" then Ok default
  else
    match path with
    | VStr p =>
        let keys := str_split "." p in
        try_except (resolve_loop keys data default)
          [KeyError; IndexError; TypeError; AttributeError]
          (Ok default)
    | _ => Raise AttributeError
    end.

(** ** Formatter *)

Definition catches (caught : list exn) (e : exn) : bool :=
  existsb (exn_eqb e) caught.

Fixpoint plain_digits (s : string) (acc : Z) : option Z :=
  match s with
  | EmptyString => Some acc
  | String a r =>
      if is_digit a then plain_digits r (10 * acc + digit_val a) else None
  end.

(** The precision in the format specification [",.{p}f"]: the text of [p]
    has to be a non-empty run of digits, since the character after it is the
    presentation type and has to end the specification. *)
Definition spec_precision (p : val) : outcome nat :=
  match str p with
  | EmptyString => Raise ValueError
  | t =>
      match plain_digits t 0 with
      | Some n => if 2147483647 <? n then Raise ValueError else Ok (Z.to_nat n)
      | None => Raise ValueError
      end
  end.

(** [f"{num_value:,.{decimal_places}f}"] *)
Definition format_grouped_fixed (num_value : float) (decimal_places : val)
    : outcome string :=
  d <- spec_precision decimal_places ;;
  Ok (format_float_fixed true d num_value).

(** [f"{num_value:.{decimal_places}f}"].  The model reads the specification
    as a precision, as above; Python also accepts a text of [decimal_places]
    that starts with an alignment character, the point then being the fill
    character. *)
Definition format_plain_fixed (num_value : float) (decimal_places : val)
    : outcome string :=
  d <- spec_precision decimal_places ;;
  Ok (format_float_fixed false d num_value).

Definition _format_currency (value params : val) : outcome val :=
  match float_of value with
  | Raise e =>
      if catches [ValueError; TypeError] e then Ok (VStr "0.00") else Raise e
  | Ok num_value =>
      decimal_places <- get params "decimal_places" (VInt 2) ;;
      show_cents <- get params "show_cents" (VBool true) ;;
      symbol <- get params "currency_symbol" (VStr "$") ;;
      separator <- get params "thousands_separator" (VStr ",") ;;
      negative_format <- get params "negative_format" (VStr "parentheses") ;;
      is_negative <- lt (VFloat num_value) (VInt 0) ;;
      let num_value := SFabs num_value in
      formatted <-
        (if truthy show_cents then format_grouped_fixed num_value decimal_places
         else z <- int_of_float num_value ;; Ok (format_int_grouped z)) ;;
      let formatted :=
        if truthy symbol then str symbol ++ formatted else formatted in
      let formatted :=
        if is_negative then
          if eq_str negative_format "parentheses"
          then "(" ++ formatted ++ ")"
          else "-" ++ formatted
        else formatted in
      Ok (VStr formatted)
  end.

(** The loop of [_format_mask]: [result] and [val_idx] are its two
    variables. *)
Fixpoint mask_loop (pattern : list val) (value_str : string)
    (result : string) (val_idx : nat) : outcome string :=
  match pattern with
  | [] => Ok result
  | char :: rest =>
      if eq_str char "#" || eq_str char "X" then
        if (val_idx <? String.length value_str)%nat then
          match String.get val_idx value_str with
          | Some c =>
              mask_loop rest value_str (result ++ String c EmptyString)
                (val_idx + 1)
          | None => Raise IndexError
          end
        else mask_loop rest value_str result val_idx
      else
        match char with
        | VStr c => mask_loop rest value_str (result ++ c) val_idx
        | _ => Raise TypeError
        end
  end.

Definition _format_mask (value params : val) : outcome val :=
  pattern <- get params "pattern" (VStr "") ;;
  let value_str := str_remove " " (str_remove "-" (str value)) in
  items <- iterate pattern ;;
  result <- mask_loop items value_str "" 0 ;;
  Ok (VStr result).

Definition float_100 : float := Eval vm_compute in float_round_int 100.

Definition _format_percentage (value params : val) : outcome val :=
  match float_of value with
  | Raise e =>
      if catches [ValueError; TypeError] e then Ok (VStr "0.00%") else Raise e
  | Ok num_value =>
      decimal_places <- get params "decimal_places" (VInt 2) ;;
      multiply_by_100 <- get params "multiply_by_100" (VBool true) ;;
      show_symbol <- get params "show_symbol" (VBool true) ;;
      let num_value :=
        if truthy multiply_by_100 then SFmul prec emax num_value float_100
        else num_value in
      formatted <- format_plain_fixed num_value decimal_places ;;
      let formatted :=
        if truthy show_symbol then formatted ++ "%" else formatted in
      Ok (VStr formatted)
  end.

(** [value.lower() in ['true', 'yes', '1', 'x']]; the four words are ASCII,
    so only the ASCII letters of [value] matter. *)
Definition checked_word (s : string) : bool :=
  let w := str_lower s in
  String.eqb w "true" || String.eqb w "yes" || String.eqb w "1"
  || String.eqb w "x".

Definition _format_checkbox (value params : val) : outcome val :=
  checked_symbol <- get params "checked_symbol" (VStr "X") ;;
  unchecked_symbol <- get params "unchecked_symbol" (VStr "") ;;
  let is_checked :=
    match value with
    | VBool b => b
    | VStr s => checked_word s
    | VInt _ | VFloat _ => truthy value
    | _ => false
    end in
  Ok (if is_checked then checked_symbol else unchecked_symbol).

Section Dates.

(** The [datetime] class of the standard library: parsing gives [None]
    where Python raises [ValueError]. *)
Variable datetime : Type.
Variable fromisoformat : string -> option datetime.
Variable strptime : string -> string -> option datetime.
Variable strftime : datetime -> string -> option string.

(** [datetime.fromisoformat(value)] and [datetime.strptime(value, fmt)]
    accept only [str] arguments. *)
Definition parse_date (value input_format : val) : outcome datetime :=
  if eq_str input_format "ISO8601" then
    match value with
    | VStr s =>
        match fromisoformat s with
        | Some d => Ok d
        | None => Raise ValueError
        end
    | _ => Raise TypeError
    end
  else
    match value, input_format with
    | VStr s, VStr fmt =>
        match strptime s fmt with
        | Some d => Ok d
        | None => Raise ValueError
        end
    | _, _ => Raise TypeError
    end.

Definition render_date (date_obj : datetime) (fmt : val) : outcome val :=
  match fmt with
  | VStr f =>
      match strftime date_obj f with
      | Some s => Ok (VStr s)
      | None => Raise ValueError
      end
  | _ => Raise TypeError
  end.

Definition _format_date (value params : val) : outcome val :=
  output_format <- get params "format" (VStr "MM/DD/YYYY") ;;
  input_format <- get params "input_format" (VStr "ISO8601") ;;
  try_except
    (date_obj <- parse_date value input_format ;;
     if eq_str output_format "MM/DD/YYYY" then
       render_date date_obj (VStr "%m/%d/%Y")
     else if eq_str output_format "DD/MM/YYYY" then
       render_date date_obj (VStr "%d/%m/%Y")
     else if eq_str output_format "YYYY-MM-DD" then
       render_date date_obj (VStr "%Y-%m-%d")
     else render_date date_obj output_format)
    [ValueError; AttributeError]
    (Ok (VStr (str value))).

Definition format_value (value formatting : val) : outcome val :=
  if is_none value then Ok (VStr "")
  else if negb (truthy formatting) then Ok (VStr (str value))
  else
    format_type <- get formatting "format_type" (VStr "") ;;
    params <- get formatting "parameters" (VDict []) ;;
    if eq_str format_type "currency" then _format_currency value params
    else if eq_str format_type "mask" then _format_mask value params
    else if eq_str format_type "date" then _format_date value params
    else if eq_str format_type "percentage" then _format_percentage value params
    else if eq_str format_type "checkbox" then _format_checkbox value params
    else Ok (VStr (str value)).

End Dates.

(** ** Statements that change state

    A statement runs from a state, returns or raises, and leaves a state;
    what it changed before raising stays changed. *)

Definition M (S A : Type) : Type := S -> outcome A * S.

Definition ret {S A : Type} (a : A) : M S A := fun s => (Ok a, s).

Definition bindM {S A B : Type} (m : M S A) (k : A -> M S B) : M S B :=
  fun s =>
    match m s with
    | (Ok a, s') => k a s'
    | (Raise e, s') => (Raise e, s')
    end.

Notation "x <~ m ;; k" := (bindM m (fun x => k))
  (at level 61, m at next level, right associativity).
Notation "m ;;; k" := (bindM m (fun _ => k))
  (at level 61, right associativity).

(** An expression: it raises or returns, and changes nothing. *)
Definition lift {S A : Type} (r : outcome A) : M S A := fun s => (r, s).

Definition modify {S : Type} (f : S -> S) : M S unit := fun s => (Ok tt, f s).

Definition read {S A : Type} (f : S -> A) : M S A := fun s => (Ok (f s), s).

(** [if c: body] *)
Definition when {S : Type} (c : bool) (body : M S unit) : M S unit :=
  if c then body else ret tt.

(** [try: body except (e1, ..., en): handler] for statements *)
Definition try_catch {S A : Type} (body : M S A) (caught : list exn)
    (handler : M S A) : M S A :=
  fun s =>
    match body s with
    | (Ok a, s') => (Ok a, s')
    | (Raise e, s') => if catches caught e then handler s' else (Raise e, s')
    end.

(** [for x in l: body(x)] *)
Fixpoint for_each {S A : Type} (l : list A) (body : A -> M S unit) : M S unit :=
  match l with
  | [] => ret tt
  | x :: r => body x ;;; for_each r body
  end.

(** ** Validator *)

Definition float_inf : val := VFloat pos_inf.

Definition range_failure : val :=
  VStr "Value must be numeric for range validation".

Section Validation.

(** [re.match(pattern, text)] of the standard library: [Some true] for a
    match object, [Some false] for [None], and [None] where the pattern
    does not compile and Python raises [re.error]. *)
Variable re_match : string -> string -> option bool.

(** [errors.append(msg)] on the local list of [validate_value] *)
Definition append (msg : val) : M (list val) unit :=
  modify (fun errors => (errors ++ [msg])%list).

(** [not re.match(pattern, text)]; a pattern is a [str] *)
Definition no_match (pattern : val) (text : string) : outcome bool :=
  match pattern with
  | VStr p =>
      match re_match p text with
      | Some b => Ok (negb b)
      | None => Raise ReError
      end
  | _ => Raise TypeError
  end.

(** The body of [for validation in validations] *)
Definition validate_rule (value validation : val) : M (list val) unit :=
  rule_type <~ lift (get validation "rule_type" (VStr "")) ;;
  params <~ lift (get validation "parameters" (VDict [])) ;;
  error_msg <~ lift (get validation "error_message"
                       (VStr (str rule_type ++ " validation failed"))) ;;
  if eq_str rule_type "required" then
    when (is_none value || String.eqb (str_strip (str value)) "")
      (append error_msg)
  else if eq_str rule_type "regex" then
    pattern <~ lift (get params "pattern" (VStr "")) ;;
    failed <~ lift (no_match pattern (str value)) ;;
    when failed (append error_msg)
  else if eq_str rule_type "range" then
    try_catch
      (num_value <~ lift (float_of value) ;;
       min_val <~ lift (get params "min" VNone) ;;
       max_val <~ lift (get params "max" VNone) ;;
       below <~ lift (if is_none min_val then Ok false
                      else lt (VFloat num_value) min_val) ;;
       when below (append error_msg) ;;;
       above <~ lift (if is_none max_val then Ok false
                      else gt (VFloat num_value) max_val) ;;
       when above (append error_msg))
      [ValueError; TypeError]
      (append range_failure)
  else if eq_str rule_type "length" then
    min_length <~ lift (get params "min_length" (VInt 0)) ;;
    max_length <~ lift (get params "max_length" float_inf) ;;
    let length := VInt (Z.of_nat (String.length (str value))) in
    inside <~ lift (lo <- le min_length length ;;
                    if lo then le length max_length else Ok false) ;;
    when (negb inside) (append error_msg)
  else ret tt.

(** [validate_value(self, value, validations)] *)
Definition validate_value (value validations : val) : outcome (list val) :=
  match iterate validations with
  | Raise e => Raise e
  | Ok rules =>
      match for_each rules (validate_rule value) [] with
      | (Ok _, errors) => Ok errors
      | (Raise e, _) => Raise e
      end
  end.

End Validation.

(** ** Layout engine *)

(** What the renderer asks of the canvas, in the order asked. *)
Inductive call : Type :=
| SetFont (family size : val)
| SetStrokeColorRGB (r g b : val)
| SetLineWidth (w : val)
| Rect (x y width height : val)
| DrawString (x y text : val).

(** The canvas [c]: its page size and the calls made on it so far.  The
    canvas belongs to the PDF library; its methods are recorded, not
    interpreted. *)
Record canvas : Type := {
  _pagesize : val * val;
  calls : list call
}.

(** The renderer object [self]. *)
Record renderer : Type := {
  data : val;
  errors : list string;
  warnings : list string
}.

Definition state : Type := renderer * canvas.

Definition emit (k : call) : M state unit :=
  modify (fun st : state =>
    (fst st, {| _pagesize := _pagesize (snd st);
                calls := (calls (snd st) ++ [k])%list |})).

(** [self.errors.extend(msgs)] *)
Definition extend_errors (msgs : list string) : M state unit :=
  modify (fun st : state =>
    ({| data := data (fst st);
        errors := (errors (fst st) ++ msgs)%list;
        warnings := warnings (fst st) |}, snd st)).

(** [self.warnings.append(msg)] *)
Definition append_warning (msg : string) : M state unit :=
  modify (fun st : state =>
    ({| data := data (fst st);
        errors := errors (fst st);
        warnings := (warnings (fst st) ++ [msg])%list |}, snd st)).

Definition float_0_95 : float := Eval vm_compute in float_of_decimal false 95 (-2) 2.
Definition float_0_3 : float := Eval vm_compute in float_of_decimal false 3 (-1) 1.
Definition float_0_8 : float := Eval vm_compute in float_of_decimal false 8 (-1) 1.
Definition float_0_5 : float := Eval vm_compute in float_of_decimal false 5 (-1) 1.

Definition default_padding : val :=
  VDict [("top", VInt 0); ("right", VInt 2); ("bottom", VInt 0); ("left", VInt 2)].

Definition font_map : val :=
  VDict [("Courier", VStr "Courier"); ("Helvetica", VStr "Helvetica");
         ("Times-Roman", VStr "Times-Roman")].

(** [font_map.get(name, 'Courier')]: the keys are strings, so any other
    value is not found *)
Definition map_font (name : val) : outcome val :=
  match name with
  | VStr s => get font_map s (VStr "Courier")
  | VList _ | VDict _ => Raise TypeError
  | _ => Ok (VStr "Courier")
  end.

(** [_render_character_spaced]: the loop variable [current_x] is threaded
    through the characters. *)
Fixpoint spaced_loop (text : list val) (current_x y spacing : val)
    : M state unit :=
  match text with
  | [] => ret tt
  | char :: rest =>
      if negb (eq_str char "-" || eq_str char " ") then
        emit (DrawString current_x y char) ;;;
        next_x <~ lift (add current_x spacing) ;;
        spaced_loop rest next_x y spacing
      else spaced_loop rest current_x y spacing
  end.

Definition _render_character_spaced (text x y spacing : val) : M state unit :=
  items <~ lift (iterate text) ;;
  spaced_loop items x y spacing.

Section Rendering.

Variable datetime : Type.
Variable fromisoformat : string -> option datetime.
Variable strptime : string -> string -> option datetime.
Variable strftime : datetime -> string -> option string.
Variable re_match : string -> string -> option bool.

(** [c.stringWidth(text, fontName, fontSize)] of the PDF library *)
Variable stringWidth : val -> val -> val -> outcome val.

(** [x + width - text_width - padding['right']] *)
Definition right_anchor (x width text_width padding : val) : outcome val :=
  a <- add x width ;;
  b <- sub a text_width ;;
  pr <- item padding "right" ;;
  sub b pr.

(** [x + (width - text_width) / 2] *)
Definition center_anchor (x width text_width : val) : outcome val :=
  a <- sub width text_width ;;
  b <- truediv a (VInt 2) ;;
  add x b.

Definition aligned (alignment x width text_width padding text_x : val)
    : outcome val :=
  if eq_str alignment "right" then right_anchor x width text_width padding
  else if eq_str alignment "center" then center_anchor x width text_width
  else Ok text_x.

(** [width - padding['left'] - padding['right']] *)
Definition interior_width (width padding : val) : outcome val :=
  pl <- item padding "left" ;;
  a <- sub width pl ;;
  pr <- item padding "right" ;;
  sub a pr.

(** [_render_field(self, c, field, show_debug)] *)
Definition _render_field (field show_debug : val) : M state unit :=
  field_id <~ lift (get field "field_id" (VStr "unknown")) ;;
  (* Resolve value *)
  value_ref <~ lift (get field "value_reference" (VDict [])) ;;
  path <~ lift (get value_ref "path" (VStr "")) ;;
  default <~ lift (get value_ref "default_value" VNone) ;;
  self_data <~ read (fun st : state => data (fst st)) ;;
  value <~ lift (resolve_value_reference self_data path default) ;;
  (* Skip if no value and not required *)
  absent <~ lift (if is_none value then
                    required <- get field "required" (VBool false) ;;
                    Ok (negb (truthy required))
                  else Ok false) ;;
  if absent then ret tt
  else
  (* Validate *)
  validations <~ lift (get field "validation" (VList [])) ;;
  validation_errors <~ lift (validate_value re_match value validations) ;;
  skip <~
    (if truthy (VList validation_errors) then
       extend_errors
         (map (fun err => str field_id ++ ": " ++ str err) validation_errors) ;;;
       required <~ lift (get field "required" (VBool false)) ;;
       ret (truthy required)
     else ret false) ;;
  if skip then ret tt
  else
  (* Format value *)
  formatting <~ lift (get field "formatting" VNone) ;;
  formatted_value <~
    lift (format_value datetime fromisoformat strptime strftime
            value formatting) ;;
  (* Get positioning and dimensions *)
  position <~ lift (get field "position" (VDict [])) ;;
  dimensions <~ lift (get field "dimensions" (VDict [])) ;;
  padding <~ lift (get field "padding" default_padding) ;;
  x <~ lift (get position "x" (VInt 0)) ;;
  y <~ lift (get position "y" (VInt 0)) ;;
  width <~ lift (get dimensions "width" (VInt 100)) ;;
  height <~ lift (get dimensions "height" (VInt 20)) ;;
  (* Convert percentage coordinates if needed *)
  coord_system <~ lift (get position "coordinate_system" (VStr "absolute")) ;;
  pagesize <~ read (fun st : state => _pagesize (snd st)) ;;
  let '(page_width, page_height) := pagesize in
  geometry <~
    lift (if eq_str coord_system "percentage" then
            x1 <- truediv x (VInt 100) ;;
            x2 <- mul x1 page_width ;;
            y1 <- truediv y (VInt 100) ;;
            y2 <- mul y1 page_height ;;
            w1 <- truediv width (VInt 100) ;;
            w2 <- mul w1 page_width ;;
            h1 <- truediv height (VInt 100) ;;
            h2 <- mul h1 page_height ;;
            Ok (x2, y2, w2, h2)
          else Ok (x, y, width, height)) ;;
  let '(x, y, width, height) := geometry in
  (* Convert Y coordinate (PDF origin is bottom-left, we use top-left) *)
  y <~ lift (a <- sub page_height y ;; sub a height) ;;
  (* Set font *)
  font_style <~ lift (get field "font_style" (VDict [])) ;;
  font_family <~ lift (get font_style "font_family" (VStr "Courier")) ;;
  font_size <~ lift (get font_style "font_size" (VInt 10)) ;;
  font_family <~ lift (map_font font_family) ;;
  emit (SetFont font_family font_size) ;;;
  (* Debug: draw field box *)
  when (truthy show_debug)
    (emit (SetStrokeColorRGB (VFloat float_0_8) (VFloat float_0_8)
             (VFloat float_0_8)) ;;;
     emit (SetLineWidth (VFloat float_0_5)) ;;;
     emit (Rect x y width height)) ;;;
  (* Handle character spacing (for SSN, EIN, etc.) *)
  character_spacing <~ lift (get field "character_spacing" VNone) ;;
  if truthy character_spacing then
    start_x <~ lift (pl <- item padding "left" ;; add x pl) ;;
    mid_y <~ lift (h <- truediv height (VInt 2) ;; add y h) ;;
    _render_character_spaced formatted_value start_x mid_y character_spacing
  else
  (* Calculate text position based on alignment *)
  alignment <~ lift (get field "alignment" (VStr "left")) ;;
  text_width <~ lift (stringWidth formatted_value font_family font_size) ;;
  text_x <~ lift (pl <- item padding "left" ;; add x pl) ;;
  text_x <~ lift (aligned alignment x width text_width padding text_x) ;;
  (* Handle overflow *)
  overflow <~ lift (get field "overflow_behavior" (VStr "truncate")) ;;
  shrink <~ lift (if eq_str overflow "shrink" then
                    avail <- interior_width width padding ;;
                    gt text_width avail
                  else Ok false) ;;
  drawn <~
    (if shrink then
       (* Shrink font to fit *)
       scale <~ lift (avail <- interior_width width padding ;;
                      truediv avail text_width) ;;
       new_size <~ lift (a <- mul font_size scale ;;
                         mul a (VFloat float_0_95)) ;;
       emit (SetFont font_family new_size) ;;;
       text_width <~ lift (stringWidth formatted_value font_family new_size) ;;
       (* Recalculate position *)
       text_x <~ lift (aligned alignment x width text_width padding text_x) ;;
       ret (text_x, formatted_value)
     else if eq_str overflow "truncate" then
       max_length <~ lift (get field "max_length" VNone) ;;
       too_long <~ lift (if truthy max_length then
                           n <- len formatted_value ;;
                           gt (VInt n) max_length
                         else Ok false) ;;
       if too_long then
         cut <~ lift (slice_to formatted_value max_length) ;;
         append_warning (str field_id ++ ": Value truncated to "
                           ++ str max_length ++ " characters") ;;;
         ret (text_x, cut)
       else ret (text_x, formatted_value)
     else ret (text_x, formatted_value)) ;;
  let '(text_x, formatted_value) := drawn in
  (* Render text (vertically centered in box) *)
  text_y <~ lift (a <- sub height font_size ;;
                  b <- truediv a (VInt 2) ;;
                  c <- add y b ;;
                  d <- mul font_size (VFloat float_0_3) ;;
                  add c d) ;;
  emit (DrawString text_x text_y formatted_value).

End Rendering.

(** ** Notions of the specification *)

(** *** Paths
    A path is a dotted sequence of segments; a segment is a key, with or
    without an index subscript. *)




(** A key that the path syntax can address: none of the three
    metacharacters occurs in it. *)
Definition plain_key (k : string) : bool :=
  negb (str_contains "." k) && negb (str_contains "[" k)
  && negb (str_contains "]" k).


(** The traversal has passed the keys [keys], from [v], each step finding a
    value that is not null. *)
Fixpoint passes (v : val) (keys : list string) : option val :=
  match keys with
  | [] => Some v
  | key :: rest =>
      match resolve_step v key with
      | Ok u => if is_none u then None else passes u rest
      | Raise _ => None
      end
  end.

(** The base key and the index of a segment written [base[index]]. *)
Definition subscripted (key : string) : option (string * Z) :=
  if str_contains "[" key && str_contains "]" key then
    match str_index "[" key, str_index "]" key with
    | Ok lb, Ok rb =>
        match int_of_str (str_slice (lb + 1) rb key) with
        | Ok i => Some (str_take lb key, i)
        | Raise _ => None
        end
    | _, _ => None
    end
  else None.

(** At [key], the lookup in the mapping [v] finds a key that is present and
    holds null: the key of a plain segment, or the base key or the indexed
    element of a subscripted one. *)
Definition stored_null (v : val) (key : string) : bool :=
  match v with
  | VDict d =>
      if str_contains "[" key && str_contains "]" key then
        match subscripted key with
        | Some (base, i) =>
            match assoc base d with
            | Some VNone => true
            | Some (VList l) =>
                match list_item l i with
                | Ok VNone => true
                | _ => false
                end
            | _ => false
            end
        | None => false
        end
      else
        match assoc key d with
        | Some VNone => true
        | _ => false
        end
  | _ => false
  end.

(** At [key], the mapping [v] has no such key. *)
Definition missing_key (v : val) (key : string) : bool :=
  match v with
  | VDict d =>
      if str_contains "[" key && str_contains "]" key then
        match subscripted key with
        | Some (base, _) =>
            match assoc base d with
            | None => true
            | Some _ => false
            end
        | None => false
        end
      else
        match assoc key d with
        | None => true
        | Some _ => false
        end
  | _ => false
  end.

(** The exceptions that a step of the traversal can raise. *)
Definition step_exn (e : exn) : bool :=
  catches [KeyError; IndexError; TypeError; AttributeError; ValueError] e.

(** *** Masks *)

Definition is_placeholder (c : ascii) : bool :=
  Ascii.eqb c "#" || Ascii.eqb c "X".

(** The walk over a mask pattern, as the specification words it: a
    placeholder takes the next source character, or nothing when the source
    is used up; any other character is copied. *)
Fixpoint mask_walk (pattern source : string) : string :=
  match pattern with
  | EmptyString => EmptyString
  | String c rest =>
      if is_placeholder c then
        match source with
        | String a source' => String a (mask_walk rest source')
        | EmptyString => mask_walk rest EmptyString
        end
      else String c (mask_walk rest source)
  end.

(** The source text without its hyphens and spaces. *)
Fixpoint strip_separators (s : string) : string :=
  match s with
  | EmptyString => EmptyString
  | String a r =>
      if Ascii.eqb a "-" || Ascii.eqb a " " then strip_separators r
      else String a (strip_separators r)
  end.

(** *** Validation *)

(** The message that a rule is configured with: its [error_message], or the
    generated text when it has none. *)
Definition rule_message (validation : val) : val :=
  match validation with
  | VDict d =>
      match assoc "error_message" d with
      | Some m => m
      | None =>
          VStr (str (match assoc "rule_type" d with
                     | Some t => t
                     | None => VStr ""
                     end) ++ " validation failed")
      end
  | _ => VNone
  end.

Definition rule_is (kind : string) (validation : val) : bool :=
  match validation with
  | VDict d =>
      match assoc "rule_type" d with
      | Some t => eq_str t kind
      | None => false
      end
  | _ => false
  end.

(** The value is absent or, once stringified and trimmed, empty. *)
Definition blank (value : val) : bool :=
  is_none value || String.eqb (str_strip (str value)) "".

(** The value cannot be coerced to a number. *)
Definition non_numeric (value : val) : bool :=
  match float_of value with
  | Raise ValueError | Raise TypeError => true
  | _ => false
  end.


(** What one rule does on its own: how its check ends, and the messages it
    records. *)
Definition rule_outcome (re_match : string -> string -> option bool)
    (value validation : val) : outcome unit :=
  fst (validate_rule re_match value validation []).

Definition rule_messages (re_match : string -> string -> option bool)
    (value validation : val) : list val :=
  snd (validate_rule re_match value validation []).

(** A statement on a list that only appends to it, the same items whatever
    the list holds. *)
Definition appends {A : Type} (m : M (list val) A) : Prop :=
  forall s, m s = (fst (m []), (s ++ snd (m []))%list).

(** *** Fields *)

(** The value that [_render_field] resolves for a field. *)
Definition resolved_value (self_data field : val) : outcome val :=
  value_ref <- get field "value_reference" (VDict []) ;;
  path <- get value_ref "path" (VStr "") ;;
  default <- get value_ref "default_value" VNone ;;
  resolve_value_reference self_data path default.

Definition is_required (field : val) : bool :=
  match get field "required" (VBool false) with
  | Ok r => truthy r
  | Raise _ => false
  end.

Definition field_label (field : val) : string :=
  match get field "field_id" (VStr "unknown") with
  | Ok i => str i
  | Raise _ => ""
  end.

Definition field_rules (field : val) : val :=
  match get field "validation" (VList []) with
  | Ok r => r
  | Raise _ => VNone
  end.

(** ** The annotation model (tax_annotation_system.py)

    The dataclasses as records, each in a module of its name, with its
    [to_dict].  A field annotated [float] holds a number of either kind. *)

Module FieldType.
Inductive t : Type :=
| TEXT | NUMBER | CURRENCY | DATE | SSN | CHECKBOX | SIGNATURE | EIN
| PERCENTAGE.

Definition value (k : t) : string :=
  match k with
  | TEXT => "text"
  | NUMBER => "number"
  | CURRENCY => "currency"
  | DATE => "date"
  | SSN => "ssn"
  | CHECKBOX => "checkbox"
  | SIGNATURE => "signature"
  | EIN => "ein"
  | PERCENTAGE => "percentage"
  end.
End FieldType.

Module AlignmentType.
Inductive t : Type := LEFT | RIGHT | CENTER.

Definition value (k : t) : string :=
  match k with
  | LEFT => "left"
  | RIGHT => "right"
  | CENTER => "center"
  end.
End AlignmentType.

Module CoordinateSystem.
Inductive t : Type := ABSOLUTE | PERCENTAGE.

Definition value (k : t) : string :=
  match k with
  | ABSOLUTE => "absolute"
  | PERCENTAGE => "percentage"
  end.
End CoordinateSystem.

Module Overflow.
(** [Literal["truncate", "shrink", "wrap", "error"]] *)
Inductive t : Type := truncate | shrink | wrap | error.

Definition value (k : t) : string :=
  match k with
  | truncate => "truncate"
  | shrink => "shrink"
  | wrap => "wrap"
  | error => "error"
  end.
End Overflow.

Definition option_val {A : Type} (f : A -> val) (o : option A) : val :=
  match o with
  | Some a => f a
  | None => VNone
  end.

Module Position.
Record t : Type := {
  x : num;
  y : num;
  coordinate_system : CoordinateSystem.t
}.

Definition to_dict (self : t) : val :=
  VDict [("x", of_num (x self));
         ("y", of_num (y self));
         ("coordinate_system",
          VStr (CoordinateSystem.value (coordinate_system self)))].
End Position.

Module Dimensions.
Record t : Type := {
  width : num;
  height : num
}.

Definition to_dict (self : t) : val :=
  VDict [("width", of_num (width self)); ("height", of_num (height self))].
End Dimensions.

Module FontStyle.
Record t : Type := {
  font_family : string;
  font_size : Z;
  bold : bool;
  italic : bool;
  color : string
}.

Definition default : t :=
  {| font_family := "Courier"; font_size := 10; bold := false;
     italic := false; color := "#000000" |}.

Definition to_dict (self : t) : val :=
  VDict [("font_family", VStr (font_family self));
         ("font_size", VInt (font_size self));
         ("bold", VBool (bold self));
         ("italic", VBool (italic self));
         ("color", VStr (color self))].
End FontStyle.

Module ValueReference.
Record t : Type := {
  path : string;
  default_value : option string
}.

Definition to_dict (self : t) : val :=
  VDict [("path", VStr (path self));
         ("default_value", option_val VStr (default_value self))].
End ValueReference.

Module ValidationRule.
Record t : Type := {
  rule_type : string;
  parameters : list (string * val);
  error_message : string
}.

(** [ValidationRule(rule_type=k)]: the other fields at their defaults *)
Definition make (k : string) : t :=
  {| rule_type := k; parameters := []; error_message := "" |}.

Definition to_dict (self : t) : val :=
  VDict [("rule_type", VStr (rule_type self));
         ("parameters", VDict (parameters self));
         ("error_message", VStr (error_message self))].
End ValidationRule.

Module FormattingRule.
Record t : Type := {
  format_type : string;
  parameters : list (string * val)
}.

Definition to_dict (self : t) : val :=
  VDict [("format_type", VStr (format_type self));
         ("parameters", VDict (parameters self))].
End FormattingRule.

Module FieldAnnotation.
Record t : Type := {
  field_id : string;
  field_name : string;
  field_type : FieldType.t;
  position : Position.t;
  dimensions : Dimensions.t;
  value_reference : ValueReference.t;
  alignment : AlignmentType.t;
  font_style : FontStyle.t;
  max_length : option Z;
  formatting : option FormattingRule.t;
  validation : list ValidationRule.t;
  overflow_behavior : Overflow.t;
  character_spacing : option num;
  padding : list (string * num);
  page_number : Z;
  required : bool;
  description : string;
  irs_line_reference : string
}.

Definition to_dict (self : t) : val :=
  VDict [("field_id", VStr (field_id self));
         ("field_name", VStr (field_name self));
         ("field_type", VStr (FieldType.value (field_type self)));
         ("position", Position.to_dict (position self));
         ("dimensions", Dimensions.to_dict (dimensions self));
         ("value_reference", ValueReference.to_dict (value_reference self));
         ("alignment", VStr (AlignmentType.value (alignment self)));
         ("font_style", FontStyle.to_dict (font_style self));
         ("max_length", option_val VInt (max_length self));
         ("formatting", option_val FormattingRule.to_dict (formatting self));
         ("validation", VList (map ValidationRule.to_dict (validation self)));
         ("overflow_behavior",
          VStr (Overflow.value (overflow_behavior self)));
         ("character_spacing", option_val of_num (character_spacing self));
         ("padding",
          VDict (map (fun kv => (fst kv, of_num (snd kv))) (padding self)));
         ("page_number", VInt (page_number self));
         ("required", VBool (required self));
         ("description", VStr (description self));
         ("irs_line_reference", VStr (irs_line_reference self))].
End FieldAnnotation.

Module FormAnnotation.
(** The [metadata] of a form is not read by the two lookups below and is
    left out of the record. *)
Record t : Type := {
  fields : list FieldAnnotation.t;
  version : string
}.

(** [get_field_by_id(self, field_id)] *)
Fixpoint find_field (l : list FieldAnnotation.t) (field_id : string)
    : option FieldAnnotation.t :=
  match l with
  | [] => None
  | field :: rest =>
      if String.eqb (FieldAnnotation.field_id field) field_id then Some field
      else find_field rest field_id
  end.

Definition get_field_by_id (self : t) (field_id : string)
    : option FieldAnnotation.t :=
  find_field (fields self) field_id.

(** [get_fields_by_page(self, page_number)] *)
Definition get_fields_by_page (self : t) (page_number : Z)
    : list FieldAnnotation.t :=
  filter (fun f => FieldAnnotation.page_number f =? page_number) (fields self).
End FormAnnotation.

(** ** Further notions of the specification *)



(** The characters of a text that [_render_character_spaced] draws. *)
Fixpoint spaced_chars (text : string) : list ascii :=
  match text with
  | EmptyString => []
  | String a r =>
      if Ascii.eqb a "-" || Ascii.eqb a " " then spaced_chars r
      else a :: spaced_chars r
  end.

(** The calls that draw the characters [cs] from [x] on, [spacing] apart,
    at the height [y]. *)
Fixpoint spaced_calls (cs : list ascii) (x spacing : Z) (y : val)
    : list call :=
  match cs with
  | [] => []
  | c :: rest =>
      DrawString (VInt x) y (VStr (String c EmptyString))
      :: spaced_calls rest (x + spacing) spacing y
  end.

(** Number of placeholders of a mask pattern. *)
Fixpoint placeholders (pattern : string) : nat :=
  match pattern with
  | EmptyString => O
  | String c rest =>
      if is_placeholder c then S (placeholders rest) else placeholders rest
  end.

Definition is_separator (c : ascii) : bool :=
  Ascii.eqb c "-" || Ascii.eqb c " ".

(** Every character of the pattern is a placeholder or a separator. *)
Definition separator_pattern (pattern : string) : bool :=
  str_forall (fun c => is_placeholder c || is_separator c) pattern.

(** The format types that [format_value] knows. *)
Definition known_format (t : val) : bool :=
  eq_str t "currency" || eq_str t "mask" || eq_str t "date"
  || eq_str t "percentage" || eq_str t "checkbox".

(** The rule types that [validate_value] knows. *)
Definition known_rule (t : val) : bool :=
  eq_str t "required" || eq_str t "regex" || eq_str t "range"
  || eq_str t "length".

Definition upper (c : ascii) : ascii :=
  let n := ord c in
  if ((97 <=? n) && (n <=? 122))%nat then chr (n - 32) else c.

Fixpoint str_upper (s : string) : string :=
  match s with
  | EmptyString => EmptyString
  | String a r => String (upper a) (str_upper r)
  end.

(** The loop of [render_to_pdf] over the fields of one page:
    [for field in page_fields: self._render_field(c, field, show_debug)]. *)
Definition render_page_fields (datetime : Type)
    (fromisoformat : string -> option datetime)
    (strptime : string -> string -> option datetime)
    (strftime : datetime -> string -> option string)
    (re_match : string -> string -> option bool)
    (stringWidth : val -> val -> val -> outcome val)
    (page_fields : list val) (show_debug : val) : M state unit :=
  for_each page_fields
    (fun field =>
       _render_field datetime fromisoformat strptime strftime re_match
         stringWidth field show_debug).

(** The messages that rendering a field records as errors: the messages of
    its validation, each under the field's identifier, when the field gets
    as far as validation and validation returns. *)
Definition recorded_errors (re_match : string -> string -> option bool)
    (self_data field : val) : list string :=
  match resolved_value self_data field with
  | Ok value =>
      if is_none value && negb (is_required field) then []
      else
        match validate_value re_match value (field_rules field) with
        | Ok errs =>
            map (fun err => field_label field ++ ": " ++ str err) errs
        | Raise _ => []
        end
  | Raise _ => []
  end.

(** [l] is [prefix] followed by more. *)
Definition extends {A : Type} (prefix l : list A) : Prop :=
  exists more, l = (prefix ++ more)%list.

(** A state that has only grown: more errors, warnings and canvas calls,
    the same data document and page size. *)
Definition grown (st st' : state) : Prop :=
  data (fst st') = data (fst st)
  /\ _pagesize (snd st') = _pagesize (snd st)
  /\ extends (errors (fst st)) (errors (fst st'))
  /\ extends (warnings (fst st)) (warnings (fst st'))
  /\ extends (calls (snd st)) (calls (snd st')).

(** A statement that only lets the state grow, also when it raises. *)
Definition growing {A : Type} (m : M state A) : Prop :=
  forall st, grown st (snd (m st)).

(** A statement that leaves the error list alone, also when it raises. *)
Definition keeps_errors {A : Type} (m : M state A) : Prop :=
  forall st, errors (fst (snd (m st))) = errors (fst st).




(** An overflow tag under which the layout does nothing for overflow: any
    tag but [shrink], and [truncate] only without a [max_length]. *)
Definition inert_overflow (overflow max_length : val) : bool :=
  negb (eq_str overflow "shrink")
  && (negb (eq_str overflow "truncate") || negb (truthy max_length)).

(* ------------------------------------------------------------------ *)

(** * Properties *)

#[local] Arguments Z.mul : simpl never.
#[local] Arguments Z.add : simpl never.
#[local] Arguments Z.sub : simpl never.
#[local] Arguments Z.pow : simpl never.
#[local] Arguments Z.div : simpl never.
#[local] Arguments Z.modulo : simpl never.
#[local] Arguments Z.of_nat : simpl never.

(** ** Strings *)

Lemma str_contains_app c a b :
  str_contains c (a ++ b) = str_contains c a || str_contains c b.
Proof.
  induction a as [|x a IH]; simpl; [reflexivity|].
  rewrite IH. now rewrite orb_assoc.
Qed.

Lemma str_index_app c a b :
  str_contains c a = false ->
  str_index c (a ++ String c b) = Ok (String.length a).
Proof.
  induction a as [|x a IH]; simpl; intros H.
  - now rewrite Ascii.eqb_refl.
  - apply orb_false_elim in H as [Hx Ha].
    rewrite Hx, (IH Ha). reflexivity.
Qed.

Lemma str_take_app a b : str_take (String.length a) (a ++ b) = a.
Proof. induction a as [|x a IH]; simpl; [now destruct b | now rewrite IH]. Qed.

Lemma str_drop_app a b : str_drop (String.length a) (a ++ b) = b.
Proof. induction a as [|x a IH]; simpl; [reflexivity | exact IH]. Qed.

Lemma str_take_all a : str_take (String.length a) a = a.
Proof. induction a as [|x a IH]; simpl; [reflexivity | now rewrite IH]. Qed.

Lemma str_length_app a b :
  String.length (a ++ b) = (String.length a + String.length b)%nat.
Proof. induction a as [|x a IH]; simpl; [reflexivity | now rewrite IH]. Qed.

Lemma str_app_assoc (a b c : string) : (a ++ b) ++ c = a ++ (b ++ c).
Proof. induction a as [|x a IH]; simpl; [reflexivity | now rewrite IH]. Qed.

Lemma str_app_empty (a : string) : a ++ "" = a.
Proof. induction a as [|x a IH]; simpl; [reflexivity | now rewrite IH]. Qed.

(** Splitting on a separator that the text does not contain. *)
Lemma str_split_absent c k :
  str_contains c k = false -> str_split c k = [k].
Proof.
  induction k as [|x k IH]; simpl; intros H; [reflexivity|].
  apply orb_false_elim in H as [Hx Hk].
  rewrite Hx, (IH Hk). reflexivity.
Qed.



Lemma str_forall_app p a b :
  str_forall p (a ++ b) = str_forall p a && str_forall p b.
Proof.
  induction a as [|x a IH]; simpl; [reflexivity|].
  rewrite IH. now rewrite andb_assoc.
Qed.

Lemma str_rev_onto_app s acc : str_rev_onto s acc = str_rev s ++ acc.
Proof.
  unfold str_rev. revert acc.
  induction s as [|x s IH]; intros acc; simpl; [reflexivity|].
  rewrite IH, (IH (String x "")), str_app_assoc. reflexivity.
Qed.

Lemma str_rev_app a b : str_rev (a ++ b) = str_rev b ++ str_rev a.
Proof.
  induction a as [|x a IH]; simpl.
  - now rewrite str_app_empty.
  - unfold str_rev at 1 3. simpl.
    rewrite !str_rev_onto_app, IH, str_app_assoc. reflexivity.
Qed.

Lemma str_rev_involutive s : str_rev (str_rev s) = s.
Proof.
  induction s as [|x s IH]; [reflexivity|].
  unfold str_rev at 2. simpl.
  rewrite str_rev_onto_app, str_rev_app, IH. reflexivity.
Qed.

Lemma str_forall_rev p s : str_forall p (str_rev s) = str_forall p s.
Proof.
  induction s as [|x s IH]; [reflexivity|].
  unfold str_rev. simpl.
  rewrite str_rev_onto_app, str_forall_app, IH. simpl.
  rewrite andb_true_r. apply andb_comm.
Qed.

Lemma str_drop_while_none p s :
  str_forall (fun c => negb (p c)) s = true -> str_drop_while p s = s.
Proof.
  destruct s as [|x s]; simpl; [reflexivity|].
  intros H. apply andb_prop in H as [Hx _].
  apply negb_true_iff in Hx. now rewrite Hx.
Qed.

(** Stripping leaves alone a text that has none of the stripped
    characters. *)
Lemma str_strip_with_none p s :
  str_forall (fun c => negb (p c)) s = true -> str_strip_with p s = s.
Proof.
  intros H. unfold str_strip_with.
  rewrite (str_drop_while_none p s H).
  rewrite str_drop_while_none by now rewrite str_forall_rev.
  apply str_rev_involutive.
Qed.

Lemma str_forall_impl (p q : ascii -> bool) s :
  (forall c, p c = true -> q c = true) ->
  str_forall p s = true -> str_forall q s = true.
Proof.
  intros Hpq. induction s as [|x s IH]; simpl; [reflexivity|].
  intros H. apply andb_prop in H as [Hx Hs].
  now rewrite (Hpq _ Hx), (IH Hs).
Qed.

Lemma str_contains_forall c s :
  str_forall (fun a => negb (Ascii.eqb a c)) s = true ->
  str_contains c s = false.
Proof.
  induction s as [|x s IH]; simpl; [reflexivity|].
  intros H. apply andb_prop in H as [Hx Hs].
  apply negb_true_iff in Hx. now rewrite Hx, (IH Hs).
Qed.

(** ** Decimal numerals *)

Lemma digit_cases d :
  0 <= d < 10 ->
  d = 0 \/ d = 1 \/ d = 2 \/ d = 3 \/ d = 4 \/ d = 5 \/ d = 6 \/ d = 7
  \/ d = 8 \/ d = 9.
Proof. lia. Qed.

Ltac each_digit d H :=
  destruct (digit_cases d H) as
    [->|[->|[->|[->|[->|[->|[->|[->|[->| ->]]]]]]]]]; reflexivity.

Lemma is_digit_chr d : 0 <= d < 10 -> is_digit (digit_chr d) = true.
Proof. intros H. each_digit d H. Qed.

Lemma digit_val_chr d : 0 <= d < 10 -> digit_val (digit_chr d) = d.
Proof. intros H. each_digit d H. Qed.

Lemma is_digit_range c :
  is_digit c = true -> (48 <= ord c <= 57)%nat.
Proof.
  unfold is_digit. intros H. apply andb_prop in H as [H1 H2].
  apply Nat.leb_le in H1, H2. lia.
Qed.

(** A digit is none of the characters that the path syntax or the numeral
    syntax gives a meaning to. *)
Lemma digit_not_char c (x : ascii) :
  is_digit c = true -> (ord x < 48 \/ 57 < ord x)%nat ->
  Ascii.eqb c x = false.
Proof.
  intros Hd Hx. apply Ascii.eqb_neq. intros ->.
  apply is_digit_range in Hd. lia.
Qed.

Lemma digit_not_space c : is_digit c = true -> is_numeral_space c = false.
Proof.
  intros Hd. apply is_digit_range in Hd. unfold is_numeral_space.
  repeat match goal with
         | |- context [(?a <=? ?b)%nat] =>
             destruct (Nat.leb_spec a b)
         | |- context [(?a =? ?b)%nat] =>
             destruct (Nat.eqb_spec a b)
         end; simpl; try reflexivity; lia.
Qed.

Lemma plain_digits_app s t a :
  plain_digits (s ++ t) a =
  match plain_digits s a with
  | Some v => plain_digits t v
  | None => None
  end.
Proof.
  revert a. induction s as [|x s IH]; intros a; simpl; [reflexivity|].
  destruct (is_digit x); [apply IH | reflexivity].
Qed.

Lemma scan_digits_all s :
  str_forall is_digit s = true ->
  forall acc n, exists v,
    plain_digits s acc = Some v /\
    scan_digits s acc n = (v, (n + String.length s)%nat, "").
Proof.
  induction s as [|x s IH]; simpl; intros H acc n.
  - exists acc. now rewrite Nat.add_0_r.
  - apply andb_prop in H as [Hx Hs]. rewrite Hx.
    destruct (IH Hs (10 * acc + digit_val x) (S n)) as [v [Hv Hscan]].
    exists v. split; [assumption|].
    rewrite Hscan. now rewrite Nat.add_succ_r.
Qed.

Lemma dec_digits_spec fuel :
  forall z acc, 0 <= z < 10 ^ Z.of_nat (S fuel) ->
  exists ds,
    dec_digits (S fuel) z acc = ds ++ acc /\
    str_forall is_digit ds = true /\
    ds <> "" /\
    forall a, plain_digits ds a
              = Some (a * 10 ^ Z.of_nat (String.length ds) + z).
Proof.
  induction fuel as [|fuel IH]; intros z acc Hz;
    assert (Hd : 0 <= z mod 10 < 10) by (apply Z.mod_pos_bound; lia);
    cbn [dec_digits]; destruct (Z.ltb_spec z 10) as [Hlt|Hge].
  1,3: exists (String (digit_chr (z mod 10)) ""); simpl;
       rewrite (is_digit_chr _ Hd), (digit_val_chr _ Hd);
       repeat split; [discriminate|];
       intros a; rewrite Z.mod_small by lia; f_equal;
       change (Z.of_nat 1) with 1; lia.
  - change (10 ^ Z.of_nat 1) with 10 in Hz. lia.
  - assert (Hq : 0 <= z / 10 < 10 ^ Z.of_nat (S fuel)).
    { split; [apply Z.div_pos; lia|].
      apply Z.div_lt_upper_bound; [lia|].
      rewrite (Nat2Z.inj_succ (S fuel)), Z.pow_succ_r in Hz by lia. lia. }
    destruct (IH (z / 10) (String (digit_chr (z mod 10)) acc) Hq)
      as [ds [Heq [Hall [Hne Hval]]]].
    exists (ds ++ String (digit_chr (z mod 10)) "").
    cbn [dec_digits] in Heq. rewrite Heq, str_app_assoc. repeat split.
    + rewrite str_forall_app, Hall. simpl. now rewrite (is_digit_chr _ Hd).
    + destruct ds; [congruence | discriminate].
    + intros a. rewrite plain_digits_app, Hval. simpl.
      rewrite (is_digit_chr _ Hd), (digit_val_chr _ Hd).
      rewrite str_length_app. simpl String.length.
      rewrite Nat2Z.inj_add, Z.pow_add_r by lia.
      change (Z.of_nat 1) with 1. rewrite Z.pow_1_r.
      f_equal. pose proof (Z.div_mod z 10). lia.
Qed.

Lemma dec_of_nonneg_spec z :
  0 <= z ->
  str_forall is_digit (dec_of_nonneg z) = true /\
  dec_of_nonneg z <> "" /\
  plain_digits (dec_of_nonneg z) 0 = Some z.
Proof.
  intros Hz. unfold dec_of_nonneg.
  assert (Hb : 0 <= z < 10 ^ Z.of_nat (S (Z.to_nat (Z.log2 z)))).
  { split; [assumption|].
    rewrite Nat2Z.inj_succ, Z2Nat.id by apply Z.log2_nonneg.
    destruct (Z.eq_dec z 0) as [->|Hnz]; [reflexivity|].
    apply Z.lt_le_trans with (2 ^ Z.succ (Z.log2 z)).
    - apply Z.log2_spec. lia.
    - apply Z.pow_le_mono_l. lia. }
  destruct (dec_digits_spec _ z "" Hb) as [ds [Heq [Hall [Hne Hval]]]].
  rewrite Heq, str_app_empty. repeat split; try assumption.
  rewrite Hval. f_equal.
Qed.

(** Reading back the decimal text of a natural number. *)
Lemma int_of_str_dec z :
  0 <= z -> int_of_str (dec_of_nonneg z) = Ok z.
Proof.
  intros Hz. destruct (dec_of_nonneg_spec z Hz) as [Hall [Hne Hval]].
  unfold int_of_str.
  rewrite str_strip_with_none.
  2:{ eapply str_forall_impl; [|exact Hall].
      intros c Hc. now rewrite (digit_not_space c Hc). }
  destruct (dec_of_nonneg z) as [|a r] eqn:E; [congruence|].
  simpl in Hall. apply andb_prop in Hall as [Ha Hr].
  rewrite (digit_not_char a "-" Ha), (digit_not_char a "+" Ha)
    by (left; vm_compute; lia).
  unfold digit_part.
  destruct (scan_digits_all (String a r)) with (acc := 0) (n := 0%nat)
    as [v [Hv Hscan]].
  { simpl. now rewrite Ha, Hr. }
  rewrite Hscan. simpl Nat.add. rewrite Hval in Hv. now inversion Hv.
Qed.

Lemma str_of_nat_digits i :
  str_forall is_digit (str_of_int (Z.of_nat i)) = true /\
  int_of_str (str_of_int (Z.of_nat i)) = Ok (Z.of_nat i).
Proof.
  unfold str_of_int.
  destruct (Z.ltb_spec (Z.of_nat i) 0) as [H|H]; [lia|].
  split; [apply dec_of_nonneg_spec | apply int_of_str_dec]; assumption.
Qed.

Lemma digits_lack c s :
  (ord c < 48 \/ 57 < ord c)%nat ->
  str_forall is_digit s = true -> str_contains c s = false.
Proof.
  intros Hc Hs. apply str_contains_forall.
  eapply str_forall_impl; [|exact Hs].
  intros a Ha. now rewrite (digit_not_char a c Ha Hc).
Qed.

(** ** Path resolver *)

Lemma plain_key_lacks k :
  plain_key k = true ->
  str_contains "." k = false /\ str_contains "[" k = false
  /\ str_contains "]" k = false.
Proof.
  unfold plain_key. intros H.
  apply andb_prop in H as [H H3]. apply andb_prop in H as [H1 H2].
  now rewrite !negb_true_iff in *.
Qed.








Lemma resolve_string_path data p default :
  p <> "" ->
  resolve_value_reference data (VStr p) default =
  try_except (resolve_loop (str_split "." p) data default)
    [KeyError; IndexError; TypeError; AttributeError] (Ok default).
Proof.
  intros Hp. unfold resolve_value_reference. simpl.
  destruct (String.eqb_spec p "") as [?|_]; [contradiction | reflexivity].
Qed.



Lemma str_index_raises c s e : str_index c s = Raise e -> e = ValueError.
Proof.
  induction s as [|x s IH]; simpl; [now intros [= <-]|].
  destruct (Ascii.eqb x c); [discriminate|].
  destruct (str_index c s); simpl; [discriminate | exact IH].
Qed.

Lemma int_of_str_raises s e : int_of_str s = Raise e -> e = ValueError.
Proof.
  unfold int_of_str.
  destruct (match str_strip_with is_numeral_space s with
            | "" => _ | String a r => _ end) as [neg body].
  destruct (digit_part body); [discriminate | now intros [= <-]].
Qed.

Lemma get_raises obj key default e :
  get obj key default = Raise e -> e = AttributeError.
Proof.
  destruct obj; simpl; try (now intros [= <-]).
  destruct (assoc key d); discriminate.
Qed.

Lemma subscript_raises obj i e :
  subscript obj i = Raise e -> step_exn e = true.
Proof.
  destruct obj; simpl; try (now intros [= <-]).
  - unfold str_item.
    destruct (_ || _); [now intros [= <-]|].
    destruct (String.get _ s); [discriminate | now intros [= <-]].
  - unfold list_item.
    destruct (_ || _); [now intros [= <-]|].
    destruct (nth_error l _); [discriminate | now intros [= <-]].
Qed.

Lemma resolve_step_raises v key e :
  resolve_step v key = Raise e -> step_exn e = true.
Proof.
  unfold resolve_step.
  destruct (str_contains "[" key && str_contains "]" key).
  - destruct (str_index "[" key) as [lb|e1] eqn:E1; simpl.
    2:{ intros [= <-]. now rewrite (str_index_raises _ _ _ E1). }
    destruct (str_index "]" key) as [rb|e2] eqn:E2; simpl.
    2:{ intros [= <-]. now rewrite (str_index_raises _ _ _ E2). }
    destruct (int_of_str _) as [i|e3] eqn:E3; simpl.
    2:{ intros [= <-]. now rewrite (int_of_str_raises _ _ E3). }
    destruct (get v _ _) as [seq|e4] eqn:E4; simpl.
    2:{ intros [= <-]. now rewrite (get_raises _ _ _ _ E4). }
    apply subscript_raises.
  - intros H. now rewrite (get_raises _ _ _ _ H).
Qed.

Lemma resolve_loop_raises keys :
  forall v default e,
  resolve_loop keys v default = Raise e -> step_exn e = true.
Proof.
  induction keys as [|key rest IH]; intros v default e; simpl;
    [discriminate|].
  destruct (resolve_step v key) as [u|e1] eqn:E; simpl.
  - destruct (is_none u); [discriminate | apply IH].
  - intros [= <-]. now apply resolve_step_raises in E.
Qed.

(** C1. [resolve_value_reference] lets a [ValueError] reach the caller when
    a subscript is not an integer: the path [a[x]] over a document that has
    the list [a] raises instead of returning the default.  It is the only
    exception that a path string can raise. *)
Theorem resolve_malformed_subscript_raises :
  resolve_value_reference (VDict [("a", VList [VInt 1])]) (VStr "a[x]")
    (VInt 0) = Raise ValueError
  /\ forall data p default,
       match resolve_value_reference data (VStr p) default with
       | Ok _ => True
       | Raise e => e = ValueError
       end.
Proof.
  split; [reflexivity|].
  intros data p default. unfold resolve_value_reference.
  destruct (negb (truthy (VStr p)) || eq_str (VStr p) ""); [exact I|].
  destruct (resolve_loop _ data default) as [u|e1] eqn:E; simpl;
    [exact I|].
  apply resolve_loop_raises in E.
  destruct e1; simpl; try discriminate; trivial.
Qed.

(** Once the traversal has passed some keys, the loop goes on from the value
    it has reached. *)
Lemma resolve_loop_passes pre :
  forall data v rest default,
  passes data pre = Some v ->
  resolve_loop (pre ++ rest) data default = resolve_loop rest v default.
Proof.
  induction pre as [|key pre IH]; intros data v rest default; simpl.
  - now intros [= ->].
  - destruct (resolve_step data key) as [u|e]; [|discriminate]. simpl.
    destruct (is_none u); [discriminate | apply IH].
Qed.

Lemma list_item_empty i : list_item [] i = Raise IndexError.
Proof.
  unfold list_item. simpl List.length. change (Z.of_nat 0) with 0.
  destruct (Z.ltb_spec i 0).
  - replace (i + 0) with i by lia.
    destruct (Z.ltb_spec i 0); [reflexivity | lia].
  - destruct (Z.ltb_spec i 0); [lia|].
    destruct (Z.leb_spec 0 i); [reflexivity | lia].
Qed.

(** A step that meets a stored null, or a missing key, ends the loop with
    the default or with an exception that the resolver catches. *)
Lemma resolve_loop_null v key post default :
  stored_null v key = true \/ missing_key v key = true ->
  try_except (resolve_loop (key :: post) v default)
    [KeyError; IndexError; TypeError; AttributeError] (Ok default)
  = Ok default.
Proof.
  unfold stored_null, missing_key, subscripted. cbn [resolve_loop].
  unfold resolve_step.
  destruct v as [| | | | | |d]; try (intros [H|H]; discriminate H).
  destruct (str_contains "[" key && str_contains "]" key).
  - destruct (str_index "[" key) as [lb|]; [|intros [H|H]; discriminate H].
    destruct (str_index "]" key) as [rb|]; [|intros [H|H]; discriminate H].
    cbn [bind].
    destruct (int_of_str _) as [i|]; [|intros [H|H]; discriminate H].
    cbn [bind get].
    destruct (assoc (str_take lb key) d) as [w|].
    + intros [H|H]; [|discriminate H].
      destruct w as [| | | | |l|]; try discriminate H; [reflexivity|].
      cbn [bind subscript].
      destruct (list_item l i) as [u|]; [|discriminate H].
      destruct u; try discriminate H. reflexivity.
    + intros _. cbn [bind subscript]. now rewrite list_item_empty.
  - cbn [get]. destruct (assoc key d) as [w|].
    + intros [H|H]; [|discriminate H].
      destruct w; try discriminate H. reflexivity.
    + intros _. reflexivity.
Qed.

(** C10. If the traversal reaches a key that is present and holds null, at
    any step and also at the last one, [resolve_value_reference] returns the
    default and not the stored null; a missing key at that step gives the
    same result, so the caller cannot tell the two apart. *)
Theorem resolve_null_returns_default :
  forall data p default pre key post v,
    str_split "." p = (pre ++ key :: post)%list ->
    passes data pre = Some v ->
    stored_null v key = true \/ missing_key v key = true ->
    resolve_value_reference data (VStr p) default = Ok default.
Proof.
  intros data p default pre key post v Hsplit Hpass Hnull.
  destruct (String.eqb_spec p "") as [->|Hp]; [reflexivity|].
  rewrite resolve_string_path by assumption.
  rewrite Hsplit, (resolve_loop_passes pre data v) by assumption.
  now apply resolve_loop_null.
Qed.

Lemma resolve_null_returns_default_witness :
  resolve_value_reference
    (VDict [("income", VDict [("wages", VNone)])])
    (VStr "income.wages.amount") (VInt 0) = Ok (VInt 0)
  /\ resolve_value_reference
       (VDict [("income", VDict [("wages", VList [VNone])])])
       (VStr "income.wages[0]") (VStr "none") = Ok (VStr "none").
Proof.
  split.
  - apply (resolve_null_returns_default _ _ _
             ["income"] "wages" ["amount"] (VDict [("wages", VNone)]));
      [reflexivity | reflexivity | left; reflexivity].
  - apply (resolve_null_returns_default _ _ _
             ["income"] "wages[0]" [] (VDict [("wages", VList [VNone])]));
      [reflexivity | reflexivity | left; reflexivity].
Defined.

(** ** Mask formatting *)

Lemma strip_separators_remove s :
  str_remove " " (str_remove "-" s) = strip_separators s.
Proof.
  induction s as [|a s IH]; simpl; [reflexivity|].
  destruct (Ascii.eqb a "-") eqn:Eh; simpl; [exact IH|].
  destruct (Ascii.eqb a " "); now rewrite IH.
Qed.

Lemma str_get_drop idx :
  forall s, (idx < String.length s)%nat ->
  exists a, String.get idx s = Some a
            /\ str_drop idx s = String a (str_drop (S idx) s).
Proof.
  induction idx as [|idx IH]; intros [|x s] H; simpl in H; try lia.
  - exists x. split; reflexivity.
  - destruct (IH s) as [a [Hg Hd]]; [lia|].
    exists a. split; [exact Hg | exact Hd].
Qed.

Lemma str_drop_beyond idx :
  forall s, (String.length s <= idx)%nat -> str_drop idx s = "".
Proof.
  induction idx as [|idx IH]; intros [|x s] H; simpl in *;
    try reflexivity; try lia.
  apply IH. lia.
Qed.

Lemma placeholder_test c :
  eq_str (VStr (String c "")) "#" || eq_str (VStr (String c "")) "X"
  = is_placeholder c.
Proof.
  unfold is_placeholder. simpl.
  destruct (Ascii.eqb c "#"), (Ascii.eqb c "X"); reflexivity.
Qed.

(** The loop of [_format_mask] computes the walk of the specification over
    the part of the source that is not consumed yet. *)
Lemma mask_loop_walk p :
  forall source result val_idx,
  mask_loop (chars p) source result val_idx
  = Ok (result ++ mask_walk p (str_drop val_idx source)).
Proof.
  induction p as [|c p IH]; intros source result val_idx.
  - simpl. now rewrite str_app_empty.
  - cbn [chars mask_loop mask_walk]. rewrite placeholder_test.
    destruct (is_placeholder c).
    + destruct (Nat.ltb_spec val_idx (String.length source)) as [Hlt|Hge].
      * destruct (str_get_drop val_idx source Hlt) as [a [Hg Hd]].
        rewrite Hg, Hd, IH, str_app_assoc, Nat.add_1_r. reflexivity.
      * rewrite IH, (str_drop_beyond val_idx source Hge). reflexivity.
    + rewrite IH, str_app_assoc. reflexivity.
Qed.

(** C6. [_format_mask] strips the hyphens and spaces from the text of the
    value and walks the pattern from left to right: a [#] or [X] takes the
    next source character, any other character is copied, and the
    placeholders left when the source is used up produce nothing.  So
    [123456789] under [XXX-XX-####] gives [123-45-6789], and seven digits
    give [123-45-67]. *)
Theorem format_mask_walks_pattern :
  (forall value d p,
      assoc "pattern" d = Some (VStr p) ->
      _format_mask value (VDict d)
      = Ok (VStr (mask_walk p (strip_separators (str value)))))
  /\ _format_mask (VStr "123456789") (VDict [("pattern", VStr "XXX-XX-####")])
     = Ok (VStr "123-45-6789")
  /\ _format_mask (VStr "1234567") (VDict [("pattern", VStr "XXX-XX-####")])
     = Ok (VStr "123-45-67").
Proof.
  split; [|split; reflexivity].
  intros value d p Hp. unfold _format_mask. cbn [get bind]. rewrite Hp.
  cbn [bind iterate]. rewrite mask_loop_walk. cbn [bind str_drop].
  now rewrite strip_separators_remove.
Qed.

Lemma format_mask_walks_pattern_witness :
  _format_mask (VStr "12-3456789")
    (VDict [("pattern", VStr "##-#######")])
  = Ok (VStr (mask_walk "##-#######" (strip_separators "12-3456789"))).
Proof.
  apply (proj1 format_mask_walks_pattern (VStr "12-3456789")
           [("pattern", VStr "##-#######")] "##-#######").
  reflexivity.
Defined.

(** ** Validator *)

Section Appending.

Context {A B : Type}.

Lemma appends_ret (a : A) : appends (ret a).
Proof. intros s. cbn. now rewrite app_nil_r. Qed.

Lemma appends_lift (r : outcome A) : appends (lift r).
Proof. intros s. cbn. now rewrite app_nil_r. Qed.

Lemma appends_bind (m : M (list val) A) (k : A -> M (list val) B) :
  appends m -> (forall a, appends (k a)) -> appends (bindM m k).
Proof.
  intros Hm Hk s. unfold bindM. rewrite (Hm s).
  destruct (m []) as [[a|e] w]; cbn [fst snd].
  - rewrite (Hk a (s ++ w)%list), (Hk a w). cbn [fst snd].
    now rewrite app_assoc.
  - reflexivity.
Qed.

Lemma appends_try (body handler : M (list val) A) caught :
  appends body -> appends handler ->
  appends (try_catch body caught handler).
Proof.
  intros Hb Hh s. unfold try_catch. rewrite (Hb s).
  destruct (body []) as [[a|e] w]; cbn [fst snd]; [reflexivity|].
  destruct (catches caught e); [|reflexivity].
  rewrite (Hh (s ++ w)%list), (Hh w). cbn [fst snd].
  now rewrite app_assoc.
Qed.

End Appending.

Lemma appends_append msg : appends (append msg).
Proof. intros s. reflexivity. Qed.

Lemma appends_when c (body : M (list val) unit) :
  appends body -> appends (when c body).
Proof. destruct c; [trivial | intros _; apply appends_ret]. Qed.

Ltac appending :=
  repeat first
    [ apply appends_bind; [|intros ?]
    | apply appends_try
    | apply appends_when
    | apply appends_append
    | apply appends_lift
    | apply appends_ret
    | match goal with
      | |- appends (if ?c then _ else _) => destruct c
      end ].

(** A rule only appends its messages to the list, whatever the list
    holds. *)
Lemma validate_rule_appends re_match value validation :
  appends (validate_rule re_match value validation).
Proof. unfold validate_rule. appending. Qed.

Lemma validate_rule_frame re_match value validation errors :
  validate_rule re_match value validation errors
  = (rule_outcome re_match value validation,
     (errors ++ rule_messages re_match value validation)%list).
Proof. apply validate_rule_appends. Qed.

(** The loop over the rules, when every rule returns: nothing stops it, and
    the messages come in the order of the rules. *)
Lemma for_each_rules re_match value rules :
  Forall (fun r => rule_outcome re_match value r = Ok tt) rules ->
  forall errors,
  for_each rules (validate_rule re_match value) errors
  = (Ok tt,
     (errors ++ List.concat (map (rule_messages re_match value) rules))%list).
Proof.
  induction rules as [|r rules IH]; intros Hall errors.
  - cbn. now rewrite app_nil_r.
  - inversion Hall as [|? ? Hr Hrest]; subst.
    cbn [for_each map List.concat]. unfold bindM.
    rewrite validate_rule_frame, Hr, (IH Hrest).
    now rewrite app_assoc.
Qed.

Lemma validate_value_concat re_match value rules :
  Forall (fun r => rule_outcome re_match value r = Ok tt) rules ->
  validate_value re_match value (VList rules)
  = Ok (List.concat (map (rule_messages re_match value) rules)).
Proof.
  intros Hall. unfold validate_value. cbn [iterate].
  now rewrite (for_each_rules re_match value rules Hall []).
Qed.

Lemma get_dict d key default :
  get (VDict d) key default
  = Ok (match assoc key d with Some v => v | None => default end).
Proof. simpl. now destruct (assoc key d). Qed.

(** Run the statements of the state monad. *)
Ltac run :=
  cbv beta iota zeta delta
      [bindM lift when append modify try_catch ret fst snd catches existsb
       exn_eqb app].












(** ** Formatter *)

(** C5. [_format_currency] reads the configured [thousands_separator] and
    does not use it: with the separator [.] configured, 1234.5 is still
    grouped with commas.  The rest of the claim holds: an input that is no
    number gives [0.00], and -1234.5 with two decimal places gives
    [($1,234.50)] under [parentheses] and [-$1,234.50] under [minus]. *)
Theorem format_currency_ignores_separator :
  _format_currency (VFloat (float_lit "1234.5"))
    (VDict [("thousands_separator", VStr ".")])
  = Ok (VStr "$1,234.50")
  /\ _format_currency (VFloat (float_lit "-1234.5"))
       (VDict [("decimal_places", VInt 2);
               ("negative_format", VStr "parentheses")])
     = Ok (VStr "($1,234.50)")
  /\ _format_currency (VFloat (float_lit "-1234.5"))
       (VDict [("decimal_places", VInt 2);
               ("negative_format", VStr "minus")])
     = Ok (VStr "-$1,234.50")
  /\ (forall value params,
        non_numeric value = true ->
        _format_currency value params = Ok (VStr "0.00")).
Proof.
  split; [vm_compute; reflexivity|].
  split; [vm_compute; reflexivity|].
  split; [vm_compute; reflexivity|].
  intros value params. unfold non_numeric, _format_currency.
  destruct (float_of value) as [|e]; [discriminate|].
  destruct e; try discriminate; reflexivity.
Qed.

Lemma format_currency_ignores_separator_witness :
  _format_currency (VStr "n/a") (VDict [("currency_symbol", VStr "EUR")])
  = Ok (VStr "0.00").
Proof.
  apply (proj2 (proj2 (proj2 format_currency_ignores_separator))).
  reflexivity.
Defined.

(** C4. [_format_date] lets a [TypeError] reach the caller when the value
    is not a string: the parsers of [datetime] refuse it with that error,
    and the handler catches only [ValueError] and [AttributeError].  For a
    string that does not parse under the configured [input_format], the
    string is returned unchanged. *)
Theorem format_date_non_text_raises :
  (forall (datetime : Type) fromisoformat strptime strftime,
      _format_date datetime fromisoformat strptime strftime
        (VInt 20240101) (VDict [])
      = Raise TypeError)
  /\ (forall (datetime : Type) fromisoformat strptime strftime s d,
        parse_date datetime fromisoformat strptime (VStr s)
          (match assoc "input_format" d with
           | Some f => f
           | None => VStr "ISO8601"
           end)
        = Raise ValueError ->
        _format_date datetime fromisoformat strptime strftime
          (VStr s) (VDict d)
        = Ok (VStr s)).
Proof.
  split; [reflexivity|].
  intros datetime fromisoformat strptime strftime s d Hparse.
  unfold _format_date. rewrite !get_dict. cbn [bind].
  rewrite Hparse. reflexivity.
Qed.

Lemma format_date_non_text_raises_witness :
  _format_date unit (fun _ => None) (fun _ _ => None) (fun _ _ => None)
    (VStr "31/12/2024") (VDict [("format", VStr "YYYY-MM-DD")])
  = Ok (VStr "31/12/2024").
Proof.
  apply (proj2 format_date_non_text_raises unit).
  reflexivity.
Defined.

(** ** Fields *)

(** Run the statements of [_render_field]. *)
Ltac run_field :=
  cbv beta iota zeta delta
      [bindM lift when read modify ret extend_errors emit fst snd].

Section FieldSkipping.

Variable datetime : Type.
Variable fromisoformat : string -> option datetime.
Variable strptime : string -> string -> option datetime.
Variable strftime : datetime -> string -> option string.
Variable re_match : string -> string -> option bool.
Variable stringWidth : val -> val -> val -> outcome val.

Let render :=
  _render_field datetime fromisoformat strptime strftime re_match
    stringWidth.

(** A field whose value is absent and that is not required: nothing is
    drawn and nothing is recorded. *)
Lemma render_absent_optional field show_debug st :
  resolved_value (data (fst st)) field = Ok VNone ->
  is_required field = false ->
  render field show_debug st = (Ok tt, st).
Proof.
  unfold resolved_value, is_required, render, _render_field.
  destruct field as [| | | | | |f]; try discriminate.
  rewrite !get_dict. cbn [bind]. run_field.
  destruct (get _ "path" _) as [path|]; [|discriminate]. cbn [bind].
  destruct (get _ "default_value" _) as [default|]; [|discriminate].
  cbn [bind]. intros -> Hreq. cbn [is_none bind]. now rewrite Hreq.
Qed.

(** A required field whose value fails validation: nothing is drawn, and
    the messages are recorded under the field's identifier. *)
Lemma render_required_invalid field show_debug st value errs :
  resolved_value (data (fst st)) field = Ok value ->
  is_required field = true ->
  validate_value re_match value (field_rules field) = Ok errs ->
  errs <> [] ->
  render field show_debug st
  = (Ok tt,
     ({| data := data (fst st);
         errors :=
           (errors (fst st)
            ++ map (fun err => (field_label field ++ ": " ++ str err)%string)
                 errs)%list;
         warnings := warnings (fst st) |},
      snd st)).
Proof.
  unfold resolved_value, is_required, field_rules, field_label, render,
    _render_field.
  destruct field as [| | | | | |f]; try discriminate.
  rewrite !get_dict. cbn [bind]. run_field.
  destruct (get _ "path" _) as [path|]; [|discriminate]. cbn [bind].
  destruct (get _ "default_value" _) as [default|]; [|discriminate].
  cbn [bind]. intros -> Hreq -> Hne. rewrite Hreq.
  destruct errs as [|e errs]; [congruence|].
  destruct (is_none value); reflexivity.
Qed.

(** The rules that pass record nothing. *)
Lemma passing_rules_silent value rules :
  Forall (fun r => validate_rule re_match value r [] = (Ok tt, [])) rules ->
  Forall (fun r => rule_outcome re_match value r = Ok tt) rules
  /\ List.concat (map (rule_messages re_match value) rules) = [].
Proof.
  induction 1 as [|r rules Hr _ [IH1 IH2]]; [split; constructor|].
  unfold rule_outcome, rule_messages in *. split.
  - constructor; [now rewrite Hr | exact IH1].
  - cbn [map List.concat]. now rewrite Hr, IH2.
Qed.

(** A [required] rule on a blank value records its message, once. *)
Lemma required_rule_records value r :
  rule_is "required" r = true ->
  blank value = true ->
  validate_rule re_match value r [] = (Ok tt, [rule_message r]).
Proof.
  destruct r as [| | | | | |d]; try discriminate.
  unfold rule_is, blank, validate_rule, rule_message.
  rewrite !get_dict. run. rewrite get_dict. run.
  destruct (assoc "rule_type" d) as [rt|]; [|discriminate].
  intros -> ->. reflexivity.
Qed.

(** A required field with exactly one failing rule, a [required] one:
    nothing is drawn and exactly one message is recorded. *)
Lemma render_required_blank field show_debug st value pre r post :
  resolved_value (data (fst st)) field = Ok value ->
  is_required field = true ->
  field_rules field = VList (pre ++ r :: post) ->
  rule_is "required" r = true ->
  blank value = true ->
  Forall (fun r' => validate_rule re_match value r' [] = (Ok tt, []))
    (pre ++ post) ->
  render field show_debug st
  = (Ok tt,
     ({| data := data (fst st);
         errors :=
           (errors (fst st)
            ++ [(field_label field ++ ": " ++ str (rule_message r))%string])%list;
         warnings := warnings (fst st) |},
      snd st)).
Proof.
  intros Hval Hreq Hrules Hr Hblank Hpass.
  apply Forall_app in Hpass as [Hpre Hpost].
  destruct (passing_rules_silent value pre Hpre) as [Opre Mpre].
  destruct (passing_rules_silent value post Hpost) as [Opost Mpost].
  pose proof (required_rule_records value r Hr Hblank) as Er.
  assert (Hv : validate_value re_match value (field_rules field)
               = Ok [rule_message r]).
  { rewrite Hrules, validate_value_concat.
    - rewrite map_app, concat_app. cbn [map List.concat].
      unfold rule_messages at 2. now rewrite Mpre, Er, Mpost.
    - apply Forall_app. split; [assumption|].
      constructor; [|assumption]. unfold rule_outcome. now rewrite Er. }
  rewrite (render_required_invalid field show_debug st value
             [rule_message r] Hval Hreq Hv ltac:(discriminate)).
  reflexivity.
Qed.

End FieldSkipping.

(** C9. A field whose resolved value is absent and that is not required is
    rendered with no call on the canvas and leaves the error and warning
    lists as they are.  A required field whose value fails validation is not
    drawn either, and its messages are appended to the error list, each
    under the field's identifier: exactly one message when the one failing
    rule is a [required] rule. *)
Theorem render_field_skips :
  forall (datetime : Type) fromisoformat strptime strftime re_match
         stringWidth field show_debug st,
    let render :=
      _render_field datetime fromisoformat strptime strftime re_match
        stringWidth in
    (resolved_value (data (fst st)) field = Ok VNone ->
     is_required field = false ->
     render field show_debug st = (Ok tt, st))
    /\ (forall value errs,
          resolved_value (data (fst st)) field = Ok value ->
          is_required field = true ->
          validate_value re_match value (field_rules field) = Ok errs ->
          errs <> [] ->
          render field show_debug st
          = (Ok tt,
             ({| data := data (fst st);
                 errors :=
                   (errors (fst st)
                    ++ map (fun err => (field_label field ++ ": " ++ str err)%string)
                         errs)%list;
                 warnings := warnings (fst st) |},
              snd st)))
    /\ (forall value pre r post,
          resolved_value (data (fst st)) field = Ok value ->
          is_required field = true ->
          field_rules field = VList (pre ++ r :: post) ->
          rule_is "required" r = true ->
          blank value = true ->
          Forall (fun r' => validate_rule re_match value r' [] = (Ok tt, []))
            (pre ++ post) ->
          render field show_debug st
          = (Ok tt,
             ({| data := data (fst st);
                 errors :=
                   (errors (fst st)
                    ++ [(field_label field ++ ": "
                         ++ str (rule_message r))%string])%list;
                 warnings := warnings (fst st) |},
              snd st))).
Proof.
  intros. subst render. split; [|split].
  - apply render_absent_optional.
  - apply render_required_invalid.
  - apply render_required_blank.
Qed.

Lemma render_field_skips_witness :
  _render_field unit (fun _ => None) (fun _ _ => None) (fun _ _ => None)
    (fun _ _ => Some true) (fun _ _ _ => Ok (VInt 0))
    (VDict [("field_id", VStr "line_7");
            ("value_reference", VDict [("path", VStr "income.tips")])])
    (VBool false)
    ({| data := VDict [("income", VDict [])]; errors := []; warnings := [] |},
     {| _pagesize := (VInt 612, VInt 792); calls := [] |})
  = (Ok tt,
     ({| data := VDict [("income", VDict [])]; errors := []; warnings := [] |},
      {| _pagesize := (VInt 612, VInt 792); calls := [] |}))
  /\ _render_field unit (fun _ => None) (fun _ _ => None) (fun _ _ => None)
       (fun _ _ => Some true) (fun _ _ _ => Ok (VInt 0))
       (VDict [("field_id", VStr "line_1");
               ("value_reference", VDict [("path", VStr "income.wages")]);
               ("required", VBool true);
               ("validation",
                VList [VDict [("rule_type", VStr "required");
                              ("error_message", VStr "wages are needed")]])])
       (VBool false)
       ({| data := VDict [("income", VDict [])]; errors := [];
           warnings := [] |},
        {| _pagesize := (VInt 612, VInt 792); calls := [] |})
     = (Ok tt,
        ({| data := VDict [("income", VDict [])];
            errors := ["line_1: wages are needed"];
            warnings := [] |},
         {| _pagesize := (VInt 612, VInt 792); calls := [] |})).
Proof.
  split.
  - apply (proj1 (render_field_skips unit (fun _ => None) (fun _ _ => None)
                    (fun _ _ => None) (fun _ _ => Some true)
                    (fun _ _ _ => Ok (VInt 0)) _ _ _)); reflexivity.
  - match goal with
    | |- _render_field _ _ _ _ _ _ ?f ?d ?s = _ =>
        exact (proj2 (proj2 (render_field_skips unit (fun _ => None)
                               (fun _ _ => None) (fun _ _ => None)
                               (fun _ _ => Some true)
                               (fun _ _ _ => Ok (VInt 0)) f d s))
                 VNone []
                 (VDict [("rule_type", VStr "required");
                         ("error_message", VStr "wages are needed")])
                 [] eq_refl eq_refl eq_refl eq_refl eq_refl
                 (Forall_nil _))
    end.
Defined.

(** * Further properties *)

(** ** Path resolver: the whole behaviour on well-formed paths *)


Lemma str_get_within i :
  forall s c, String.get i s = Some c -> (i < String.length s)%nat.
Proof.
  induction i as [|i IH]; intros [|a s] c H; simpl in *;
    try discriminate; try lia.
  apply IH in H. lia.
Qed.







(** ** Path resolver: subscripts that count from the end *)

(** A segment [k[t]], for any text [t] that [int] reads. *)
Lemma resolve_step_subscript_text v k t z :
  plain_key k = true ->
  str_contains "]" t = false ->
  int_of_str t = Ok z ->
  resolve_step v (k ++ "[" ++ t ++ "]")
  = (seq <- get v k (VList []) ;; subscript seq z).
Proof.
  intros H Ht Hint. destruct (plain_key_lacks k H) as [_ [Hl Hr]].
  unfold resolve_step.
  assert (E1 : str_contains "[" (k ++ "[" ++ t ++ "]") = true).
  { rewrite str_contains_app. simpl. apply orb_true_r. }
  assert (E2 : str_contains "]" (k ++ "[" ++ t ++ "]") = true).
  { rewrite !str_contains_app. simpl. now rewrite !orb_true_r. }
  rewrite E1, E2. simpl andb. cbv iota.
  change (k ++ "[" ++ t ++ "]") with (k ++ String "[" (t ++ "]")).
  rewrite (str_index_app "[" k (t ++ "]") Hl). simpl bind.
  assert (E3 : str_index "]" (k ++ String "[" (t ++ "]"))
               = Ok (String.length k + 1 + String.length t)%nat).
  { replace (k ++ String "[" (t ++ "]"))
      with ((k ++ String "[" t) ++ String "]" "")
      by (rewrite str_app_assoc; reflexivity).
    rewrite str_index_app.
    - rewrite str_length_app. simpl. f_equal. lia.
    - rewrite str_contains_app. simpl. now rewrite Hr, Ht. }
  rewrite E3. simpl bind.
  rewrite str_take_app.
  assert (E4 : str_slice (String.length k + 1)
                 (String.length k + 1 + String.length t)
                 (k ++ String "[" (t ++ "]")) = t).
  { unfold str_slice.
    replace (String.length k + 1 + String.length t - (String.length k + 1))%nat
      with (String.length t) by lia.
    replace (String.length k + 1)%nat with (String.length (k ++ "["))
      by (rewrite str_length_app; reflexivity).
    replace (k ++ String "[" (t ++ "]")) with ((k ++ "[") ++ (t ++ "]"))
      by (rewrite str_app_assoc; reflexivity).
    rewrite str_drop_app. apply str_take_app. }
  rewrite E4, Hint. reflexivity.
Qed.

Lemma digit_part_dec z : 0 <= z -> digit_part (dec_of_nonneg z) = Some z.
Proof.
  intros Hz. destruct (dec_of_nonneg_spec z Hz) as [Hall [Hne Hval]].
  unfold digit_part.
  destruct (scan_digits_all (dec_of_nonneg z) Hall 0 0%nat) as [v [Hv Hscan]].
  rewrite Hscan. simpl Nat.add. rewrite Hval in Hv. inversion Hv; subst.
  destruct (dec_of_nonneg v); [congruence | reflexivity].
Qed.

(** Reading back the decimal text of a negative integer. *)
Lemma int_of_str_negative z :
  0 < z -> int_of_str (str_of_int (- z)) = Ok (- z).
Proof.
  intros Hz. unfold str_of_int.
  destruct (Z.ltb_spec (- z) 0) as [_|?]; [|lia].
  replace (- - z) with z by lia.
  destruct (dec_of_nonneg_spec z) as [Hall [Hne Hval]]; [lia|].
  unfold int_of_str.
  rewrite str_strip_with_none.
  - cbn [Ascii.eqb Bool.eqb]. cbv iota.
    rewrite digit_part_dec by lia. reflexivity.
  - cbn [str_forall]. apply andb_true_intro. split; [reflexivity|].
    eapply str_forall_impl; [|exact Hall].
    intros c Hc. now rewrite (digit_not_space c Hc).
Qed.

Lemma list_item_from_end l k u :
  (1 <= k <= List.length l)%nat ->
  nth_error l (List.length l - k) = Some u ->
  list_item l (- Z.of_nat k) = Ok u.
Proof.
  intros Hk Hu. unfold list_item.
  destruct (Z.ltb_spec (- Z.of_nat k) 0) as [_|?]; [|lia].
  destruct (Z.ltb_spec (- Z.of_nat k + Z.of_nat (List.length l)) 0); [lia|].
  destruct (Z.leb_spec (Z.of_nat (List.length l))
              (- Z.of_nat k + Z.of_nat (List.length l))); [lia|].
  simpl.
  replace (Z.to_nat (- Z.of_nat k + Z.of_nat (List.length l)))
    with (List.length l - k)%nat by lia.
  now rewrite Hu.
Qed.

(** X2. A negative subscript counts from the end of the list: [key[-k]]
    resolves to the [k]-th element from the end, when that element is not
    null. *)
Theorem resolve_subscript_from_end :
  forall d key l k u default,
    plain_key key = true ->
    assoc key d = Some (VList l) ->
    (1 <= k <= List.length l)%nat ->
    nth_error l (List.length l - k) = Some u ->
    u <> VNone ->
    resolve_value_reference (VDict d)
      (VStr (key ++ "[" ++ str_of_int (- Z.of_nat k) ++ "]")) default
    = Ok u.
Proof.
  intros d key l k u default Hkey Hd Hk Hu Hnn.
  destruct (plain_key_lacks key Hkey) as [Hdot _].
  assert (Hint : int_of_str (str_of_int (- Z.of_nat k)) = Ok (- Z.of_nat k))
    by (apply int_of_str_negative; lia).
  assert (Hds : str_forall is_digit (dec_of_nonneg (Z.of_nat k)) = true)
    by (apply dec_of_nonneg_spec; lia).
  assert (Etext : str_of_int (- Z.of_nat k)
                  = String "-" (dec_of_nonneg (Z.of_nat k))).
  { unfold str_of_int. destruct (Z.ltb_spec (- Z.of_nat k) 0); [|lia].
    now replace (- - Z.of_nat k) with (Z.of_nat k) by lia. }
  assert (Hlack : forall c, (ord c < 48 \/ 57 < ord c)%nat ->
                            Ascii.eqb "-" c = false ->
                            str_contains c (str_of_int (- Z.of_nat k)) = false).
  { intros c Hc Hm. rewrite Etext. cbn [str_contains].
    rewrite digits_lack by assumption. now rewrite Hm. }
  rewrite resolve_string_path by (destruct key; discriminate).
  rewrite str_split_absent.
  2:{ rewrite str_contains_app, Hdot.
      change ("[" ++ str_of_int (- Z.of_nat k) ++ "]")
        with (String "[" (str_of_int (- Z.of_nat k) ++ "]")).
      cbn [str_contains Ascii.eqb Bool.eqb orb].
      rewrite str_contains_app, Hlack
        by (reflexivity || (left; vm_compute; lia)).
      reflexivity. }
  cbn [resolve_loop].
  rewrite (resolve_step_subscript_text (VDict d) key _ (- Z.of_nat k) Hkey
             (Hlack "]"%char ltac:(right; vm_compute; lia) eq_refl) Hint).
  rewrite get_dict, Hd. cbn [bind subscript].
  rewrite (list_item_from_end l k u Hk Hu). cbn [bind].
  destruct u; try congruence; reflexivity.
Qed.

Lemma resolve_subscript_from_end_witness :
  resolve_value_reference
    (VDict [("wages", VList [VInt 100; VInt 200; VInt 300])])
    (VStr "wages[-1]") (VInt 0)
  = Ok (VInt 300).
Proof.
  apply (resolve_subscript_from_end
           [("wages", VList [VInt 100; VInt 200; VInt 300])]
           "wages" [VInt 100; VInt 200; VInt 300] 1 (VInt 300) (VInt 0));
    try reflexivity; try discriminate.
  simpl. lia.
Defined.

(** ** Formatter: fallbacks and symmetries *)

(** X3. [format_value] gives the empty string for a missing value whatever
    the formatting is, and the plain text of the value when there is no
    formatting or when the format type is not one it knows. *)
Theorem format_value_fallbacks :
  forall (datetime : Type) fromisoformat strptime strftime,
    let format := format_value datetime fromisoformat strptime strftime in
    (forall formatting, format VNone formatting = Ok (VStr ""))
    /\ (forall value formatting,
          value <> VNone -> truthy formatting = false ->
          format value formatting = Ok (VStr (str value)))
    /\ (forall value d,
          value <> VNone -> d <> [] ->
          known_format (match assoc "format_type" d with
                        | Some t => t
                        | None => VStr ""
                        end) = false ->
          format value (VDict d) = Ok (VStr (str value))).
Proof.
  intros datetime fromisoformat strptime strftime format.
  subst format. unfold format_value. split; [reflexivity|]. split.
  - intros value formatting Hv Hf.
    destruct value; try congruence; cbn [is_none]; now rewrite Hf.
  - intros value d Hv Hd. unfold known_format.
    rewrite !get_dict. cbn [bind].
    set (t := match assoc "format_type" d with Some t => t | None => _ end).
    intros Hk.
    repeat (apply orb_false_elim in Hk as [Hk ?]).
    assert (Ht : truthy (VDict d) = true)
      by (destruct d; [congruence | reflexivity]).
    destruct value; try congruence; cbn [is_none]; rewrite Ht; cbn [negb];
      repeat match goal with H : eq_str t _ = false |- _ =>
               rewrite H; clear H end; reflexivity.
Qed.

Lemma format_value_fallbacks_witness :
  format_value unit (fun _ => None) (fun _ _ => None) (fun _ _ => None)
    (VInt 42) (VDict [("format_type", VStr "roman")])
  = Ok (VStr "42")
  /\ format_value unit (fun _ => None) (fun _ _ => None) (fun _ _ => None)
       (VBool true) VNone
     = Ok (VStr "True").
Proof.
  split.
  - apply (proj2 (proj2 (format_value_fallbacks unit (fun _ => None)
                           (fun _ _ => None) (fun _ _ => None)))
             (VInt 42) [("format_type", VStr "roman")]);
      [discriminate | discriminate | reflexivity].
  - apply (proj1 (proj2 (format_value_fallbacks unit (fun _ => None)
                           (fun _ _ => None) (fun _ _ => None)))
             (VBool true) VNone); [discriminate | reflexivity].
Defined.

Lemma finite_magnitude_positive s m e :
  0 < fst (float_magnitude (S754_finite s m e)).
Proof.
  unfold float_magnitude. destruct (Z.leb_spec 0 e); cbn [fst]; [|lia].
  apply Z.mul_pos_pos; [lia | now apply Z.pow_pos_nonneg].
Qed.

Lemma finite_is_negative s m e :
  lt (VFloat (S754_finite s m e)) (VInt 0) = Ok s.
Proof.
  unfold lt, compare_with. cbn [as_num num_compare compare_int_float].
  pose proof (finite_magnitude_positive s m e) as Hp.
  destruct (float_magnitude (S754_finite s m e)) as [p q]. cbn [fst] in Hp.
  cbn [option_map]. rewrite Z.mul_0_l.
  destruct s.
  - destruct (Z.compare_spec 0 (- p)); try lia. reflexivity.
  - destruct (Z.compare_spec 0 p); try lia. reflexivity.
Qed.

(** X4. The sign of an amount only decides the wrapping: a negative amount
    is formatted as the positive amount of the same magnitude, put in
    parentheses when [negative_format] is [parentheses] (the default) and
    after a minus sign otherwise. *)
Theorem format_currency_sign :
  forall m e d text,
    _format_currency (VFloat (S754_finite false m e)) (VDict d)
    = Ok (VStr text) ->
    _format_currency (VFloat (S754_finite true m e)) (VDict d)
    = Ok (VStr (if eq_str (match assoc "negative_format" d with
                           | Some f => f
                           | None => VStr "parentheses"
                           end) "parentheses"
                then "(" ++ text ++ ")"
                else "-" ++ text)).
Proof.
  intros m e d text. unfold _format_currency. cbn [float_of].
  rewrite !get_dict. cbn [bind]. rewrite !finite_is_negative. cbn [bind SFabs].
  destruct (if truthy _ then _ else _) as [formatted|]; cbn [bind];
    [|discriminate].
  intros [= <-]. reflexivity.
Qed.

Lemma format_currency_sign_witness :
  _format_currency (VFloat (float_lit "-88.5"))
    (VDict [("negative_format", VStr "minus")])
  = Ok (VStr "-$88.50").
Proof.
  apply (format_currency_sign 6227702609739776 (-46)
           [("negative_format", VStr "minus")] "$88.50").
  vm_compute. reflexivity.
Defined.

(** X5. [_format_percentage] gives [0.00%] for a value that is no number,
    whatever the parameters are. *)
Theorem format_percentage_non_numeric :
  forall value params,
    non_numeric value = true ->
    _format_percentage value params = Ok (VStr "0.00%").
Proof.
  intros value params. unfold non_numeric, _format_percentage.
  destruct (float_of value) as [|e]; [discriminate|].
  destruct e; try discriminate; reflexivity.
Qed.

Lemma format_percentage_non_numeric_witness :
  _format_percentage (VStr "n/a") VNone = Ok (VStr "0.00%").
Proof. apply format_percentage_non_numeric. reflexivity. Defined.

Lemma lower_upper c : lower (upper c) = lower c.
Proof.
  destruct c as [[] [] [] [] [] [] [] []]; reflexivity.
Qed.

Lemma str_lower_upper s : str_lower (str_upper s) = str_lower s.
Proof.
  induction s as [|a s IH]; simpl; [reflexivity|].
  now rewrite lower_upper, IH.
Qed.

(** X6. With a parameter mapping, [_format_checkbox] never raises and
    gives one of the two configured symbols; the case of the letters of a
    string value does not matter; null, lists and mappings are
    unchecked. *)
Theorem format_checkbox_symbols :
  forall d,
    let checked := match assoc "checked_symbol" d with
                   | Some c => c
                   | None => VStr "X"
                   end in
    let unchecked := match assoc "unchecked_symbol" d with
                     | Some u => u
                     | None => VStr ""
                     end in
    (forall value,
        _format_checkbox value (VDict d) = Ok checked
        \/ _format_checkbox value (VDict d) = Ok unchecked)
    /\ (forall s,
          _format_checkbox (VStr (str_upper s)) (VDict d)
          = _format_checkbox (VStr s) (VDict d))
    /\ (forall l, _format_checkbox (VList l) (VDict d) = Ok unchecked)
    /\ (forall m, _format_checkbox (VDict m) (VDict d) = Ok unchecked)
    /\ _format_checkbox VNone (VDict d) = Ok unchecked.
Proof.
  intros d checked unchecked. unfold _format_checkbox.
  rewrite !get_dict. cbn [bind]. fold checked unchecked.
  repeat split; try reflexivity.
  - intros value.
    destruct (match value with VBool b => b | _ => _ end); auto.
  - intros s. unfold checked_word. now rewrite str_lower_upper.
Qed.

(** ** Masks: length and idempotence *)

Lemma mask_walk_length p :
  forall source,
  (String.length (mask_walk p source) <= String.length p)%nat
  /\ ((placeholders p <= String.length source)%nat ->
      String.length (mask_walk p source) = String.length p).
Proof.
  induction p as [|c p IH]; intros source; cbn [mask_walk placeholders];
    [split; reflexivity|].
  destruct (is_placeholder c).
  - destruct source as [|a source]; cbn [String.length].
    + destruct (IH "") as [Hle _]. split; [lia|]. intros H. lia.
    + destruct (IH source) as [Hle Heq]. split; [lia|].
      intros H. rewrite Heq; [reflexivity | lia].
  - destruct (IH source) as [Hle Heq]. cbn [String.length]. split; [lia|].
    intros H. now rewrite Heq.
Qed.

(** X7. The text that [_format_mask] gives is never longer than the
    pattern, and is exactly as long when the stripped source has a character
    for every placeholder. *)
Theorem format_mask_length :
  forall value d p,
    assoc "pattern" d = Some (VStr p) ->
    exists text,
      _format_mask value (VDict d) = Ok (VStr text)
      /\ (String.length text <= String.length p)%nat
      /\ ((placeholders p
           <= String.length (strip_separators (str value)))%nat ->
          String.length text = String.length p).
Proof.
  intros value d p Hp.
  exists (mask_walk p (strip_separators (str value))). split.
  - unfold _format_mask. cbn [get bind]. rewrite Hp.
    cbn [bind iterate]. rewrite mask_loop_walk. cbn [bind str_drop].
    now rewrite strip_separators_remove.
  - apply mask_walk_length.
Qed.

Lemma format_mask_length_witness :
  exists text,
    _format_mask (VStr "12 34") (VDict [("pattern", VStr "##-##-##")])
    = Ok (VStr text)
    /\ (String.length text <= 8)%nat.
Proof.
  destruct (format_mask_length (VStr "12 34")
              [("pattern", VStr "##-##-##")] "##-##-##" eq_refl)
    as [text [Hrun [Hlen _]]].
  exists text. split; [exact Hrun | exact Hlen].
Defined.

Lemma strip_separators_free s :
  str_forall (fun c => negb (is_separator c)) (strip_separators s) = true.
Proof.
  induction s as [|a s IH]; simpl; [reflexivity|].
  fold (is_separator a). destruct (is_separator a) eqn:E; [exact IH|].
  simpl. now rewrite E, IH.
Qed.

Lemma mask_walk_exhausted p :
  separator_pattern p = true -> strip_separators (mask_walk p "") = "".
Proof.
  unfold separator_pattern.
  induction p as [|c p IH]; cbn [mask_walk str_forall]; [reflexivity|].
  intros H. apply andb_prop in H as [Hc Hp].
  destruct (is_placeholder c); [now apply IH|].
  cbn [orb] in Hc. cbn [strip_separators]. fold (is_separator c).
  rewrite Hc. now apply IH.
Qed.

(** What the mask keeps of a source without separators is the source, up to
    the number of placeholders. *)
Lemma strip_mask_walk p :
  separator_pattern p = true ->
  forall source,
  str_forall (fun c => negb (is_separator c)) source = true ->
  strip_separators (mask_walk p source) = str_take (placeholders p) source.
Proof.
  unfold separator_pattern.
  induction p as [|c p IH]; intros Hp source Hs;
    cbn [mask_walk placeholders str_forall] in *; [reflexivity|].
  apply andb_prop in Hp as [Hc Hp].
  destruct (is_placeholder c).
  - destruct source as [|a source].
    + now apply mask_walk_exhausted.
    + cbn [str_forall] in Hs. apply andb_prop in Hs as [Ha Hs].
      cbn [strip_separators str_take]. fold (is_separator a).
      apply negb_true_iff in Ha. rewrite Ha. now rewrite IH.
  - cbn [orb] in Hc. cbn [strip_separators]. fold (is_separator c).
    rewrite Hc. now apply IH.
Qed.

Lemma mask_walk_take p :
  forall source,
  mask_walk p (str_take (placeholders p) source) = mask_walk p source.
Proof.
  induction p as [|c p IH]; intros source; cbn [mask_walk placeholders];
    [reflexivity|].
  destruct (is_placeholder c).
  - destruct source as [|a source]; cbn [str_take]; [reflexivity|].
    now rewrite IH.
  - now rewrite IH.
Qed.

(** X8. Formatting is idempotent for a pattern made of placeholders,
    hyphens and spaces: formatting the formatted text again, under the same
    pattern, gives the same text. *)
Theorem format_mask_idempotent :
  forall value d p text,
    assoc "pattern" d = Some (VStr p) ->
    separator_pattern p = true ->
    _format_mask value (VDict d) = Ok (VStr text) ->
    _format_mask (VStr text) (VDict d) = Ok (VStr text).
Proof.
  intros value d p text Hp Hsep.
  unfold _format_mask. cbn [get bind]. rewrite Hp.
  cbn [bind iterate]. rewrite !mask_loop_walk. cbn [bind str_drop str].
  rewrite !strip_separators_remove. intros [= <-].
  rewrite strip_mask_walk by (assumption || apply strip_separators_free).
  now rewrite mask_walk_take.
Qed.

Lemma format_mask_idempotent_witness :
  _format_mask (VStr "123-45-6789") (VDict [("pattern", VStr "XXX-XX-####")])
  = Ok (VStr "123-45-6789").
Proof.
  apply (format_mask_idempotent (VInt 123456789)
           [("pattern", VStr "XXX-XX-####")] "XXX-XX-####" "123-45-6789");
    reflexivity.
Defined.

(** ** Validator: the rule types one by one *)

(** X9. A rule of a type that the validator does not know, such as
    [custom], is passed over: it records nothing and raises nothing. *)
Theorem validate_unknown_rule_ignored :
  forall re_match value d errors,
    known_rule (match assoc "rule_type" d with
                | Some t => t
                | None => VStr ""
                end) = false ->
    validate_rule re_match value (VDict d) errors = (Ok tt, errors).
Proof.
  intros re_match value d errors. unfold known_rule, validate_rule.
  rewrite !get_dict. run. rewrite get_dict. run.
  set (t := match assoc "rule_type" d with Some t => t | None => _ end).
  intros Hk. repeat (apply orb_false_elim in Hk as [Hk ?]).
  repeat match goal with H : eq_str t _ = false |- _ =>
           rewrite H; clear H end.
  reflexivity.
Qed.

Lemma validate_unknown_rule_ignored_witness :
  validate_rule (fun _ _ => None) (VStr "")
    (VDict [("rule_type", VStr "custom");
            ("error_message", VStr "never shown")])
    [VStr "earlier"]
  = (Ok tt, [VStr "earlier"]).
Proof. apply validate_unknown_rule_ignored. reflexivity. Defined.

(** X10. A [required] rule records its message exactly when the value is
    null or its text is empty once trimmed; it never raises. *)
Theorem validate_required_exact :
  forall re_match value r,
    rule_is "required" r = true ->
    validate_rule re_match value r []
    = (Ok tt, if blank value then [rule_message r] else []).
Proof.
  intros re_match value r.
  destruct r as [| | | | | |d]; try discriminate.
  unfold rule_is, blank, validate_rule, rule_message.
  rewrite !get_dict. run. rewrite get_dict. run.
  destruct (assoc "rule_type" d) as [rt|]; [|discriminate].
  intros ->. destruct (_ || _); reflexivity.
Qed.

Lemma validate_required_exact_witness :
  validate_rule (fun _ _ => None) (VStr "   ")
    (VDict [("rule_type", VStr "required")]) []
  = (Ok tt, [VStr "required validation failed"]).
Proof.
  apply (validate_required_exact (fun _ _ => None) (VStr "   ")
           (VDict [("rule_type", VStr "required")])).
  reflexivity.
Defined.

Lemma le_int a b : le (VInt a) (VInt b) = Ok (a <=? b).
Proof.
  unfold le, compare_with. cbn [as_num num_compare].
  destruct (Z.compare_spec a b), (Z.leb_spec a b); try reflexivity; lia.
Qed.

(** X11. A [length] rule with integer bounds records its message exactly
    when the number of characters of the text of the value is below
    [min_length] or above [max_length]; a bound that is not configured does
    not constrain ([min_length] defaults to 0, [max_length] to infinity). *)
Theorem validate_length_exact :
  forall re_match value d ps lo hi,
    rule_is "length" (VDict d) = true ->
    assoc "parameters" d = Some (VDict ps) ->
    assoc "min_length" ps = option_map VInt lo ->
    assoc "max_length" ps = option_map VInt hi ->
    let n := Z.of_nat (String.length (str value)) in
    validate_rule re_match value (VDict d) []
    = (Ok tt,
       if (match lo with Some a => a <=? n | None => true end)
          && (match hi with Some b => n <=? b | None => true end)
       then []
       else [rule_message (VDict d)]).
Proof.
  intros re_match value d ps lo hi. unfold rule_is, validate_rule, rule_message.
  rewrite !get_dict. run. rewrite get_dict. run.
  destruct (assoc "rule_type" d) as [rt|]; [|discriminate].
  intros Hrt Hps Hlo Hhi.
  destruct rt as [| | | |s| |]; try discriminate Hrt.
  simpl in Hrt. apply String.eqb_eq in Hrt. subst s.
  cbn [eq_str String.eqb Ascii.eqb Bool.eqb]. rewrite Hps, !get_dict.
  rewrite Hlo, Hhi. run.
  assert (Hinf : forall k, le (VInt k) float_inf = Ok true)
    by reflexivity.
  assert (H0 : (0 <=? Z.of_nat (String.length (str value))) = true)
    by (apply Z.leb_le; lia).
  destruct lo as [a|], hi as [b|]; cbn [option_map];
    rewrite ?le_int, ?Hinf, ?H0; cbn [bind];
    repeat match goal with
           | |- context [?u <=? ?v] => destruct (u <=? v)
           end;
    rewrite ?le_int, ?Hinf; cbn [bind andb negb];
    repeat match goal with
           | |- context [?u <=? ?v] => destruct (u <=? v)
           end;
    reflexivity.
Qed.

Lemma validate_length_exact_witness :
  validate_rule (fun _ _ => None) (VStr "12345")
    (VDict [("rule_type", VStr "length");
            ("parameters", VDict [("max_length", VInt 4)]);
            ("error_message", VStr "too long")]) []
  = (Ok tt, [VStr "too long"]).
Proof.
  apply (validate_length_exact (fun _ _ => None) (VStr "12345")
           [("rule_type", VStr "length");
            ("parameters", VDict [("max_length", VInt 4)]);
            ("error_message", VStr "too long")]
           [("max_length", VInt 4)] None (Some 4));
    reflexivity.
Defined.

(** X12. A rule that raises ends the validation: the exception reaches the
    caller, the rules after it are not evaluated and no message is
    returned, not even those of the rules before it. *)
Theorem validate_first_raise_aborts :
  forall re_match value pre r post e,
    Forall (fun r' => rule_outcome re_match value r' = Ok tt) pre ->
    rule_outcome re_match value r = Raise e ->
    validate_value re_match value (VList (pre ++ r :: post)) = Raise e.
Proof.
  intros re_match value pre r post e Hpre Hr.
  unfold validate_value. cbn [iterate].
  assert (H : forall errors,
             fst (for_each (pre ++ r :: post) (validate_rule re_match value)
                    errors) = Raise e).
  { induction Hpre as [|r' pre Hr' _ IH]; intros errors.
    - cbn [app for_each]. unfold bindM.
      rewrite validate_rule_frame, Hr. reflexivity.
    - cbn [app for_each]. unfold bindM.
      rewrite validate_rule_frame, Hr'. apply IH. }
  specialize (H []).
  destruct (for_each _ _ []) as [o errs]. cbn [fst] in H. now subst o.
Qed.

Lemma validate_first_raise_aborts_witness :
  validate_value (fun pattern _ => if String.eqb pattern "(" then None
                                   else Some true)
    VNone
    (VList [VDict [("rule_type", VStr "required")];
            VDict [("rule_type", VStr "regex");
                   ("parameters", VDict [("pattern", VStr "(")])];
            VDict [("rule_type", VStr "required")]])
  = Raise ReError.
Proof.
  apply (validate_first_raise_aborts _ VNone
           [VDict [("rule_type", VStr "required")]]
           (VDict [("rule_type", VStr "regex");
                   ("parameters", VDict [("pattern", VStr "(")])])
           [VDict [("rule_type", VStr "required")]] ReError).
  - repeat constructor.
  - reflexivity.
Defined.

(** X13. A rule built by [ValidationRule] without a message is serialised
    with the empty message, so the validator reports the empty string for
    it and never the generated text: here for a [required] rule on a blank
    value. *)
Theorem validate_default_rule_empty_message :
  forall re_match value,
    blank value = true ->
    validate_value re_match value
      (VList [ValidationRule.to_dict (ValidationRule.make "required")])
    = Ok [VStr ""].
Proof.
  intros re_match value Hb.
  rewrite validate_value_concat.
  - cbn [map List.concat]. unfold rule_messages.
    rewrite required_rule_records by (reflexivity || assumption).
    reflexivity.
  - repeat constructor. unfold rule_outcome.
    now rewrite required_rule_records by (reflexivity || assumption).
Qed.

Lemma validate_default_rule_empty_message_witness :
  validate_value (fun _ _ => None) VNone
    (VList [ValidationRule.to_dict (ValidationRule.make "required")])
  = Ok [VStr ""].
Proof. apply validate_default_rule_empty_message. reflexivity. Defined.

(** ** Layout: spaced characters *)

Lemma separator_test a :
  eq_str (VStr (String a "")) "-" || eq_str (VStr (String a "")) " "
  = (Ascii.eqb a "-" || Ascii.eqb a " ").
Proof.
  simpl. destruct (Ascii.eqb a "-"), (Ascii.eqb a " "); reflexivity.
Qed.

Lemma spaced_loop_ints text :
  forall x spacing y (st : state),
  spaced_loop (chars text) (VInt x) y (VInt spacing) st
  = (Ok tt,
     (fst st,
      {| _pagesize := _pagesize (snd st);
         calls := (calls (snd st)
                   ++ spaced_calls (spaced_chars text) x spacing y)%list |})).
Proof.
  induction text as [|a text IH]; intros x spacing y [r c].
  - cbn. rewrite app_nil_r. now destruct c.
  - cbn [chars spaced_loop spaced_chars]. rewrite separator_test.
    destruct (Ascii.eqb a "-" || Ascii.eqb a " "); cbn [negb].
    + apply IH.
    + unfold bindM at 1. unfold emit at 1, modify. unfold bindM at 1.
      cbn [lift add as_num]. rewrite IH. cbn [fst snd _pagesize calls].
      cbn [spaced_calls]. now rewrite <- app_assoc.
Qed.

(** X14. With an integer start and an integer spacing,
    [_render_character_spaced] draws the characters of the text that are
    neither hyphen nor space, in order, the first at the start and each next
    one exactly [spacing] further; a skipped character takes no room.
    Nothing else changes, and nothing is raised. *)
Theorem render_character_spaced_positions :
  forall text x spacing y (st : state),
    _render_character_spaced (VStr text) (VInt x) y (VInt spacing) st
    = (Ok tt,
       (fst st,
        {| _pagesize := _pagesize (snd st);
           calls := (calls (snd st)
                     ++ spaced_calls (spaced_chars text) x spacing y)%list |}))
    /\ List.length (spaced_calls (spaced_chars text) x spacing y)
       = List.length (spaced_chars text).
Proof.
  intros text x spacing y st. split.
  - unfold _render_character_spaced. cbn [iterate]. unfold bindM, lift.
    apply spaced_loop_ints.
  - generalize x. induction (spaced_chars text) as [|c cs IH]; intros x0;
      cbn [spaced_calls List.length]; [reflexivity | now rewrite IH].
Qed.

(** ** Fields: what rendering may change *)

Lemma extends_refl {A : Type} (l : list A) : extends l l.
Proof. exists []. now rewrite app_nil_r. Qed.

Lemma extends_trans {A : Type} (a b c : list A) :
  extends a b -> extends b c -> extends a c.
Proof.
  intros [m ->] [n ->]. exists (m ++ n)%list. now rewrite app_assoc.
Qed.

Lemma extends_app {A : Type} (l m : list A) : extends l (l ++ m)%list.
Proof. now exists m. Qed.

Lemma grown_refl st : grown st st.
Proof. repeat split; apply extends_refl. Qed.

Lemma grown_trans a b c : grown a b -> grown b c -> grown a c.
Proof.
  intros [D1 [P1 [E1 [W1 C1]]]] [D2 [P2 [E2 [W2 C2]]]].
  repeat split; try congruence; eapply extends_trans; eassumption.
Qed.

Section Growing.

Context {A B : Type}.

Lemma growing_ret (a : A) : growing (ret a).
Proof. intros st. apply grown_refl. Qed.

Lemma growing_lift (r : outcome A) : growing (lift r).
Proof. intros st. apply grown_refl. Qed.

Lemma growing_read (f : state -> A) : growing (read f).
Proof. intros st. apply grown_refl. Qed.

Lemma growing_bind (m : M state A) (k : A -> M state B) :
  growing m -> (forall a, growing (k a)) -> growing (bindM m k).
Proof.
  intros Hm Hk st. unfold bindM. specialize (Hm st).
  destruct (m st) as [[a|e] st1]; cbn [snd] in *; [|exact Hm].
  eapply grown_trans; [exact Hm | apply Hk].
Qed.

End Growing.

Lemma growing_emit k : growing (emit k).
Proof.
  intros st. cbn. repeat split; try apply extends_refl. apply extends_app.
Qed.

Lemma growing_extend_errors msgs : growing (extend_errors msgs).
Proof.
  intros st. cbn. repeat split; try apply extends_refl. apply extends_app.
Qed.

Lemma growing_append_warning msg : growing (append_warning msg).
Proof.
  intros st. cbn. repeat split; try apply extends_refl. apply extends_app.
Qed.

Lemma growing_when c (body : M state unit) :
  growing body -> growing (when c body).
Proof. destruct c; [trivial | intros _; apply growing_ret]. Qed.

Ltac growing_step :=
  first
    [ apply growing_bind; [|intros ?]
    | apply growing_when
    | apply growing_emit
    | apply growing_extend_errors
    | apply growing_append_warning
    | apply growing_lift
    | apply growing_read
    | apply growing_ret
    | match goal with
      | |- growing (if ?c then _ else _) => destruct c
      | |- growing (match ?p with pair _ _ => _ end) => destruct p
      end ].

Lemma growing_spaced_loop text :
  forall current_x y spacing, growing (spaced_loop text current_x y spacing).
Proof.
  induction text as [|char rest IH]; intros current_x y spacing;
    cbn [spaced_loop]; [apply growing_ret|].
  destruct (negb _); [|apply IH].
  repeat growing_step. apply IH.
Qed.

Lemma growing_render_character_spaced text x y spacing :
  growing (_render_character_spaced text x y spacing).
Proof.
  unfold _render_character_spaced. growing_step; [growing_step|].
  apply growing_spaced_loop.
Qed.

Lemma growing_render_field (datetime : Type) fromisoformat strptime strftime
    re_match stringWidth field show_debug :
  growing (_render_field datetime fromisoformat strptime strftime re_match
             stringWidth field show_debug).
Proof.
  unfold _render_field.
  repeat first [ apply growing_render_character_spaced | growing_step ].
Qed.

Lemma growing_for_each {X : Type} (l : list X) (body : X -> M state unit) :
  (forall x, growing (body x)) -> growing (for_each l body).
Proof.
  intros Hb. induction l as [|x l IH]; cbn [for_each];
    [apply growing_ret|].
  apply growing_bind; [apply Hb | intros _; exact IH].
Qed.

(** X15. Rendering the fields of a page only appends to the error list,
    the warning list and the calls on the canvas; it never removes or
    rewrites what they hold, and it leaves the data document and the page
    size as they are.  This holds also when a field raises. *)
Theorem render_only_appends :
  forall (datetime : Type) fromisoformat strptime strftime re_match
         stringWidth page_fields show_debug st,
    grown st
      (snd (render_page_fields datetime fromisoformat strptime strftime
              re_match stringWidth page_fields show_debug st)).
Proof.
  intros. unfold render_page_fields.
  apply growing_for_each. intros field. apply growing_render_field.
Qed.

(** X16. A field that raises ends the rendering of the page: the exception
    reaches the caller with the state as that field left it, and the fields
    after it are not rendered. *)
Theorem render_stops_at_first_raise :
  forall (datetime : Type) fromisoformat strptime strftime re_match
         stringWidth pre field post show_debug st st1 st2 e,
    render_page_fields datetime fromisoformat strptime strftime re_match
      stringWidth pre show_debug st = (Ok tt, st1) ->
    _render_field datetime fromisoformat strptime strftime re_match
      stringWidth field show_debug st1 = (Raise e, st2) ->
    render_page_fields datetime fromisoformat strptime strftime re_match
      stringWidth (pre ++ field :: post) show_debug st = (Raise e, st2).
Proof.
  intros datetime fromisoformat strptime strftime re_match stringWidth
    pre field post show_debug.
  unfold render_page_fields.
  induction pre as [|f pre IH]; intros st st1 st2 e Hpre Hfield.
  - cbn in Hpre. injection Hpre as <-.
    cbn [app for_each]. unfold bindM. now rewrite Hfield.
  - cbn [app for_each] in *. unfold bindM in *.
    destruct (_render_field _ _ _ _ _ _ f show_debug st) as [[u|e'] st'];
      [|discriminate].
    eapply IH; eassumption.
Qed.

Lemma render_stops_at_first_raise_witness :
  render_page_fields unit (fun _ => None) (fun _ _ => None)
    (fun _ _ => None) (fun _ _ => Some true) (fun _ _ _ => Ok (VInt 0))
    ([] ++ VDict [("value_reference", VDict [("path", VStr "wages[first]")])]
        :: [VDict [("value_reference", VDict [("path", VStr "name")])]])
    (VBool false)
    ({| data := VDict [("name", VStr "Ann")]; errors := []; warnings := [] |},
     {| _pagesize := (VInt 612, VInt 792); calls := [] |})
  = (Raise ValueError,
     ({| data := VDict [("name", VStr "Ann")]; errors := [];
         warnings := [] |},
      {| _pagesize := (VInt 612, VInt 792); calls := [] |})).
Proof.
  eapply render_stops_at_first_raise; reflexivity.
Defined.

(** ** Fields: what is recorded as an error *)

Section KeepingErrors.

Context {A B : Type}.

Lemma keeps_errors_ret (a : A) : keeps_errors (ret a).
Proof. intros st. reflexivity. Qed.

Lemma keeps_errors_lift (r : outcome A) : keeps_errors (lift r).
Proof. intros st. reflexivity. Qed.

Lemma keeps_errors_read (f : state -> A) : keeps_errors (read f).
Proof. intros st. reflexivity. Qed.

Lemma keeps_errors_bind (m : M state A) (k : A -> M state B) :
  keeps_errors m -> (forall a, keeps_errors (k a)) ->
  keeps_errors (bindM m k).
Proof.
  intros Hm Hk st. unfold bindM. specialize (Hm st).
  destruct (m st) as [[a|e] st1]; cbn [snd] in *; [|exact Hm].
  now rewrite Hk.
Qed.

End KeepingErrors.

Lemma keeps_errors_emit k : keeps_errors (emit k).
Proof. intros st. reflexivity. Qed.

Lemma keeps_errors_append_warning msg : keeps_errors (append_warning msg).
Proof. intros st. reflexivity. Qed.

Lemma keeps_errors_when c (body : M state unit) :
  keeps_errors body -> keeps_errors (when c body).
Proof. destruct c; [trivial | intros _; apply keeps_errors_ret]. Qed.

Ltac keeps_step :=
  first
    [ apply keeps_errors_bind; [|intros ?]
    | apply keeps_errors_when
    | apply keeps_errors_emit
    | apply keeps_errors_append_warning
    | apply keeps_errors_lift
    | apply keeps_errors_read
    | apply keeps_errors_ret
    | match goal with
      | |- keeps_errors (if ?c then _ else _) => destruct c
      | |- keeps_errors (match ?p with pair _ _ => _ end) => destruct p
      end ].

Lemma keeps_errors_spaced_loop text :
  forall current_x y spacing,
  keeps_errors (spaced_loop text current_x y spacing).
Proof.
  induction text as [|char rest IH]; intros current_x y spacing;
    cbn [spaced_loop]; [apply keeps_errors_ret|].
  destruct (negb _); [|apply IH].
  repeat keeps_step. apply IH.
Qed.

Lemma keeps_errors_render_character_spaced text x y spacing :
  keeps_errors (_render_character_spaced text x y spacing).
Proof.
  unfold _render_character_spaced. keeps_step; [keeps_step|].
  apply keeps_errors_spaced_loop.
Qed.

Lemma bindM_lift {S X Y : Type} (r : outcome X) (k : X -> M S Y) st :
  bindM (lift r) k st
  = match r with
    | Ok a => k a st
    | Raise e => (Raise e, st)
    end.
Proof. now destruct r. Qed.

Lemma bindM_read {S X Y : Type} (f : S -> X) (k : X -> M S Y) st :
  bindM (read f) k st = k (f st) st.
Proof. reflexivity. Qed.

(** The error list after rendering a field: the list before it, then the
    recorded messages of the field's validation. *)
Lemma render_field_errors (datetime : Type) fromisoformat strptime strftime
    re_match stringWidth field show_debug st :
  errors (fst (snd (_render_field datetime fromisoformat strptime strftime
                      re_match stringWidth field show_debug st)))
  = (errors (fst st)
     ++ recorded_errors re_match (data (fst st)) field)%list.
Proof.
  unfold recorded_errors, resolved_value, is_required, field_rules,
    field_label, _render_field.
  destruct field as [| | | | | |f];
    try (cbn; now rewrite app_nil_r).
  rewrite !get_dict. cbn [bind].
  repeat first [rewrite bindM_read | rewrite bindM_lift].
  destruct (get _ "path" _) as [path|]; cbn [bind];
    [|cbn; now rewrite app_nil_r].
  repeat first [rewrite bindM_read | rewrite bindM_lift].
  destruct (get _ "default_value" _) as [default|]; cbn [bind];
    [|cbn; now rewrite app_nil_r].
  repeat first [rewrite bindM_read | rewrite bindM_lift].
  destruct (resolve_value_reference _ path default) as [value|];
    [|cbn; now rewrite app_nil_r].
  repeat first [rewrite bindM_read | rewrite bindM_lift].
  set (required := truthy match assoc "required" f with
                          | Some r => r
                          | None => VBool false
                          end).
  assert (Eabs : (if is_none value then Ok (negb required) else Ok false)
                 = Ok (is_none value && negb required))
    by (destruct (is_none value); reflexivity).
  rewrite Eabs.
  destruct (is_none value && negb required);
    [cbn; now rewrite app_nil_r|].
  repeat first [rewrite bindM_read | rewrite bindM_lift].
  destruct (validate_value re_match value _) as [errs|];
    [|cbn; now rewrite app_nil_r].
  match goal with
  | |- errors (fst (snd (bindM ?m ?k st))) = _ =>
      assert (Hk : forall skip, keeps_errors (k skip))
  end.
  { intros skip. destruct skip; [apply keeps_errors_ret|].
    repeat first [ apply keeps_errors_render_character_spaced
                 | keeps_step ]. }
  unfold bindM at 1.
  destruct errs as [|err errs]; cbn [truthy].
  - cbn [ret]. eapply eq_trans; [exact (Hk false st)|].
    cbn. now rewrite app_nil_r.
  - unfold bindM at 1. cbn [extend_errors modify].
    rewrite bindM_lift. cbn [ret].
    eapply eq_trans; [exact (Hk required _)|]. reflexivity.
Qed.

(** X17. The error list after rendering a field is the list before it
    followed by the messages of the field's validation, each under the
    field's identifier, and by nothing else: a failure of resolving,
    formatting or laying out the field is never recorded as an error. *)
Theorem render_field_records_validation :
  forall (datetime : Type) fromisoformat strptime strftime re_match
         stringWidth field show_debug st,
    errors (fst (snd (_render_field datetime fromisoformat strptime strftime
                        re_match stringWidth field show_debug st)))
    = (errors (fst st)
       ++ recorded_errors re_match (data (fst st)) field)%list.
Proof.
  intros. apply render_field_errors.
Qed.

(** X23. The [required] flag alone records nothing: a field without
    validation rules leaves the error list as it is, also when it is
    required and its value is missing. *)
Theorem render_without_rules_records_nothing :
  forall (datetime : Type) fromisoformat strptime strftime re_match
         stringWidth field show_debug st,
    field_rules field = VList [] ->
    errors (fst (snd (_render_field datetime fromisoformat strptime strftime
                        re_match stringWidth field show_debug st)))
    = errors (fst st).
Proof.
  intros datetime fromisoformat strptime strftime re_match stringWidth
    field show_debug st Hrules.
  rewrite render_field_errors. unfold recorded_errors. rewrite Hrules.
  destruct (resolved_value _ field) as [value|]; [|apply app_nil_r].
  destruct (is_none value && negb (is_required field)); apply app_nil_r.
Qed.

Lemma render_without_rules_records_nothing_witness :
  errors (fst (snd (_render_field unit (fun _ => None) (fun _ _ => None)
                      (fun _ _ => None) (fun _ _ => Some true)
                      (fun _ _ _ => Ok (VInt 0))
                      (VDict [("field_id", VStr "line_1");
                              ("value_reference",
                               VDict [("path", VStr "income.wages")]);
                              ("required", VBool true)])
                      (VBool false)
                      ({| data := VDict [("income", VDict [])];
                          errors := ["earlier"]; warnings := [] |},
                       {| _pagesize := (VInt 612, VInt 792);
                          calls := [] |}))))
  = ["earlier"].
Proof.
  apply (render_without_rules_records_nothing unit (fun _ => None)
           (fun _ _ => None) (fun _ _ => None) (fun _ _ => Some true)
           (fun _ _ _ => Ok (VInt 0))).
  reflexivity.
Defined.


(** ** The annotation model *)

Lemma find_field_first l field_id :
  match FormAnnotation.find_field l field_id with
  | Some f =>
      FieldAnnotation.field_id f = field_id
      /\ exists pre post,
           l = (pre ++ f :: post)%list
           /\ Forall (fun g => FieldAnnotation.field_id g <> field_id) pre
  | None => Forall (fun g => FieldAnnotation.field_id g <> field_id) l
  end.
Proof.
  induction l as [|g l IH]; cbn [FormAnnotation.find_field]; [constructor|].
  destruct (String.eqb_spec (FieldAnnotation.field_id g) field_id) as [E|E].
  - split; [exact E|]. exists [], l. split; [reflexivity | constructor].
  - destruct (FormAnnotation.find_field l field_id) as [f|].
    + destruct IH as [Hid [pre [post [-> Hpre]]]]. split; [exact Hid|].
      exists (g :: pre), post. split; [reflexivity|].
      constructor; assumption.
    + constructor; assumption.
Qed.

(** X18. [get_field_by_id] returns the first field, in document order, that
    has the identifier, and nothing exactly when no field has it; with a
    duplicated identifier the later fields are never returned. *)
Theorem get_field_by_id_first :
  forall self field_id,
    match FormAnnotation.get_field_by_id self field_id with
    | Some f =>
        FieldAnnotation.field_id f = field_id
        /\ exists pre post,
             FormAnnotation.fields self = (pre ++ f :: post)%list
             /\ Forall (fun g => FieldAnnotation.field_id g <> field_id) pre
    | None =>
        Forall (fun g => FieldAnnotation.field_id g <> field_id)
          (FormAnnotation.fields self)
    end.
Proof.
  intros self field_id. unfold FormAnnotation.get_field_by_id.
  apply find_field_first.
Qed.

(** X19. [get_fields_by_page] lists for a page exactly the fields of the
    form that have that page number; nothing is lost or duplicated: the
    fields of the form are those listed for the page together with fields
    of other pages. *)
Theorem get_fields_by_page_partition :
  forall self,
    (forall f p,
        In f (FormAnnotation.get_fields_by_page self p)
        <-> In f (FormAnnotation.fields self)
            /\ FieldAnnotation.page_number f = p)
    /\ (forall p,
          exists rest,
            Permutation (FormAnnotation.fields self)
              (FormAnnotation.get_fields_by_page self p ++ rest)
            /\ Forall (fun f => FieldAnnotation.page_number f <> p) rest).
Proof.
  intros self. unfold FormAnnotation.get_fields_by_page. split.
  - intros f p. rewrite filter_In. rewrite Z.eqb_eq. reflexivity.
  - intros p.
    exists (filter (fun f => negb (FieldAnnotation.page_number f =? p))
              (FormAnnotation.fields self)).
    split.
    + induction (FormAnnotation.fields self) as [|f l IH];
        cbn [filter]; [constructor|].
      destruct (FieldAnnotation.page_number f =? p); cbn [negb app].
      * now constructor.
      * apply Permutation_cons_app. exact IH.
    + apply Forall_forall. intros f Hf. apply filter_In in Hf as [_ Hf].
      apply negb_true_iff, Z.eqb_neq in Hf. exact Hf.
Qed.




(** ** Path resolver: text after the closing bracket *)

Lemma resolve_step_subscript_trailing v k t z trailing :
  plain_key k = true ->
  str_contains "]" t = false ->
  int_of_str t = Ok z ->
  resolve_step v (k ++ "[" ++ t ++ "]" ++ trailing)
  = (seq <- get v k (VList []) ;; subscript seq z).
Proof.
  intros H Ht Hint. destruct (plain_key_lacks k H) as [_ [Hl Hr]].
  unfold resolve_step.
  assert (E1 : str_contains "[" (k ++ "[" ++ t ++ "]" ++ trailing) = true).
  { rewrite str_contains_app. simpl. apply orb_true_r. }
  assert (E2 : str_contains "]" (k ++ "[" ++ t ++ "]" ++ trailing) = true).
  { rewrite !str_contains_app. simpl. now rewrite !orb_true_r. }
  rewrite E1, E2. simpl andb. cbv iota.
  change (k ++ "[" ++ t ++ "]" ++ trailing)
    with (k ++ String "[" (t ++ String "]" trailing)).
  rewrite (str_index_app "[" k (t ++ String "]" trailing) Hl). simpl bind.
  assert (E3 : str_index "]" (k ++ String "[" (t ++ String "]" trailing))
               = Ok (String.length k + 1 + String.length t)%nat).
  { replace (k ++ String "[" (t ++ String "]" trailing))
      with ((k ++ String "[" t) ++ String "]" trailing)
      by (rewrite str_app_assoc; reflexivity).
    rewrite str_index_app.
    - rewrite str_length_app. simpl. f_equal. lia.
    - rewrite str_contains_app. simpl. now rewrite Hr, Ht. }
  rewrite E3. simpl bind.
  rewrite str_take_app.
  assert (E4 : str_slice (String.length k + 1)
                 (String.length k + 1 + String.length t)
                 (k ++ String "[" (t ++ String "]" trailing)) = t).
  { unfold str_slice.
    replace (String.length k + 1 + String.length t - (String.length k + 1))%nat
      with (String.length t) by lia.
    replace (String.length k + 1)%nat with (String.length (k ++ "["))
      by (rewrite str_length_app; reflexivity).
    replace (k ++ String "[" (t ++ String "]" trailing))
      with ((k ++ "[") ++ (t ++ String "]" trailing))
      by (rewrite str_app_assoc; reflexivity).
    rewrite str_drop_app. apply str_take_app. }
  rewrite E4, Hint. reflexivity.
Qed.

(** X21. In a segment, what follows the closing bracket is ignored: the
    path [key[i]] followed by any text without a dot resolves as [key[i]]
    does. *)
Theorem resolve_ignores_text_after_bracket :
  forall data key i trailing default,
    plain_key key = true ->
    str_contains "." trailing = false ->
    resolve_value_reference data
      (VStr (key ++ "[" ++ str_of_int (Z.of_nat i) ++ "]" ++ trailing))
      default
    = resolve_value_reference data
        (VStr (key ++ "[" ++ str_of_int (Z.of_nat i) ++ "]")) default.
Proof.
  intros data key i trailing default Hkey Htr.
  destruct (plain_key_lacks key Hkey) as [Hdot _].
  destruct (str_of_nat_digits i) as [Hd Hint].
  set (ds := str_of_int (Z.of_nat i)) in *.
  assert (Hdd : str_contains "." ds = false)
    by (apply digits_lack; [left; vm_compute; lia | exact Hd]).
  assert (Hdr : str_contains "]" ds = false)
    by (apply digits_lack; [right; vm_compute; lia | exact Hd]).
  rewrite !resolve_string_path by (destruct key; discriminate).
  rewrite !str_split_absent.
  - cbn [resolve_loop].
    rewrite (resolve_step_subscript_trailing data key ds _ trailing
               Hkey Hdr Hint).
    rewrite (resolve_step_subscript_text data key ds _ Hkey Hdr Hint).
    reflexivity.
  - rewrite !str_contains_app, Hdot, Hdd. reflexivity.
  - rewrite !str_contains_app, Hdot, Hdd, Htr. reflexivity.
Qed.

Lemma resolve_ignores_text_after_bracket_witness :
  resolve_value_reference (VDict [("wages", VList [VInt 7])])
    (VStr ("wages" ++ "[" ++ str_of_int (Z.of_nat 0) ++ "]" ++ "amount"))
    VNone
  = resolve_value_reference (VDict [("wages", VList [VInt 7])])
      (VStr ("wages" ++ "[" ++ str_of_int (Z.of_nat 0) ++ "]")) VNone.
Proof.
  apply resolve_ignores_text_after_bracket; reflexivity.
Defined.

(** ** Fields: what is recorded as a warning *)

Section KeepingWarnings.

Context {A B : Type}.








End KeepingWarnings.











(** ** Layout: overflow tags without effect *)

Lemma bindM_same {S X Y : Type} (m : M S X) (k1 k2 : X -> M S Y) st :
  (forall a s, k1 a s = k2 a s) -> bindM m k1 st = bindM m k2 st.
Proof.
  intros H. unfold bindM. destruct (m st) as [[a|e] s]; [apply H | reflexivity].
Qed.

Lemma bindM_arg {S X Y : Type} (m1 m2 : M S X) (k : X -> M S Y) st :
  m1 st = m2 st -> bindM m1 k st = bindM m2 k st.
Proof. unfold bindM. now intros ->. Qed.

Ltac same_step :=
  match goal with
  | |- ?a = ?a => reflexivity
  | |- bindM ?m _ _ = bindM ?m _ _ => apply bindM_same; intros ? ?
  | |- (if ?c then _ else _) _ = (if ?c then _ else _) _ => destruct c
  | |- (match ?p with pair _ _ => _ end) _
       = (match ?p with pair _ _ => _ end) _ => destruct p
  end.

(** X24. An overflow tag other than [shrink] and [truncate], such as
    [wrap] or [error], has no effect of its own: two fields that differ only
    in such tags are rendered alike, and alike with [truncate] when no
    [max_length] is set. *)
Theorem overflow_tags_without_effect :
  forall (datetime : Type) fromisoformat strptime strftime re_match
         stringWidth f overflow1 overflow2 show_debug st,
    let max_length := match assoc "max_length" f with
                      | Some v => v
                      | None => VNone
                      end in
    inert_overflow overflow1 max_length = true ->
    inert_overflow overflow2 max_length = true ->
    _render_field datetime fromisoformat strptime strftime re_match
      stringWidth (VDict (("overflow_behavior", overflow1) :: f))
      show_debug st
    = _render_field datetime fromisoformat strptime strftime re_match
        stringWidth (VDict (("overflow_behavior", overflow2) :: f))
        show_debug st.
Proof.
  intros datetime fromisoformat strptime strftime re_match stringWidth
    f overflow1 overflow2 show_debug st max_length H1 H2.
  unfold inert_overflow in H1, H2.
  apply andb_prop in H1 as [S1 T1]. apply andb_prop in H2 as [S2 T2].
  apply negb_true_iff in S1, S2.
  unfold _render_field. rewrite !get_dict.
  cbn [assoc String.eqb Ascii.eqb Bool.eqb]. fold max_length.
  repeat same_step.
  rewrite !bindM_lift; cbv beta iota. rewrite S1, S2.
  apply bindM_arg.
  destruct (eq_str overflow1 "truncate"), (eq_str overflow2 "truncate");
    cbn [negb orb] in T1, T2;
    try (apply negb_true_iff in T1); try (apply negb_true_iff in T2);
    repeat (rewrite !bindM_lift; cbv beta iota; rewrite ?T1, ?T2);
    reflexivity.
Qed.

Lemma overflow_tags_without_effect_witness :
  let f := [("field_id", VStr "name");
            ("value_reference", VDict [("path", VStr "name")])] in
  let st := ({| data := VDict [("name", VStr "Ada")];
                errors := []; warnings := [] |},
             {| _pagesize := (VInt 612, VInt 792); calls := [] |}) in
  _render_field unit (fun _ => None) (fun _ _ => None) (fun _ _ => None)
    (fun _ _ => Some true) (fun _ _ _ => Ok (VInt 18))
    (VDict (("overflow_behavior", VStr "wrap") :: f)) (VBool false) st
  = _render_field unit (fun _ => None) (fun _ _ => None) (fun _ _ => None)
      (fun _ _ => Some true) (fun _ _ _ => Ok (VInt 18))
      (VDict (("overflow_behavior", VStr "truncate") :: f)) (VBool false) st.
Proof.
  intros f st.
  apply (overflow_tags_without_effect unit (fun _ => None) (fun _ _ => None)
           (fun _ _ => None) (fun _ _ => Some true)
           (fun _ _ _ => Ok (VInt 18)) f (VStr "wrap") (VStr "truncate"));
    reflexivity.
Defined.
